(** * LocalBlogGenius: service layer, embedded and verified

    A shallow embedding of the service layer of the LocalBlogGenius backend
    ([app/core/ai.py], [app/services/base.py], [app/services/blog.py],
    [app/services/industry.py], [app/services/location.py]) together with the
    properties its specification states about it.

    Conventions of the embedding:
    - Python [str] is [string]; the builtin string methods used by the
      services ([lower], [in], [split], [join]) are written out on the
      ASCII range.
    - Python exceptions are values of [exn]; a call that may raise returns
      a [Res].  Code that talks to the datastore, to the completion
      provider or to the clock runs in the state-and-error monad [M].
    - Python numbers that may be [float] are exact rationals ([Q]); binary
      rounding of doubles is not modelled.
    - The datastore, the completion provider and the geocoder are outside
      the repository: what they answer, and when they fail, is given by the
      state the computations start from. *)

From Stdlib Require Import ZArith QArith Qround Qabs Ascii String DecimalString List Bool Lia Lqa.
From stdpp Require Import base option list gmap strings.

Import ListNotations.
Local Open Scope string_scope.
Local Open Scope list_scope.

(** ** Python strings *)

Module PyStr.

(** [c.lower()] for one character of the ASCII range. *)
Definition lower_ascii (c : ascii) : ascii :=
  let n := nat_of_ascii c in
  if (65 <=? n)%nat && (n <=? 90)%nat then ascii_of_nat (n + 32) else c.

(** [s.lower()] *)
Fixpoint lower (s : string) : string :=
  match s with
  | EmptyString => EmptyString
  | String c s' => String (lower_ascii c) (lower s')
  end.

(** [s.startswith(k)] *)
Fixpoint startswith (k s : string) : bool :=
  match k, s with
  | EmptyString, _ => true
  | String _ _, EmptyString => false
  | String a k', String b s' => if Ascii.eqb a b then startswith k' s' else false
  end.

(** [k in s]: [k] occurs in [s] as a contiguous run of characters. *)
Fixpoint contains (k s : string) : bool :=
  startswith k s ||
  match s with
  | EmptyString => false
  | String _ s' => contains k s'
  end.

(** [sep.join(parts)] *)
Fixpoint join (sep : string) (parts : list string) : string :=
  match parts with
  | [] => EmptyString
  | [p] => p
  | p :: rest => String.append p (String.append sep (join sep rest))
  end.

(** [s.split(",")[0]]: the text before the first comma, all of [s] when it
    has none. *)
Fixpoint before_comma (s : string) : string :=
  match s with
  | EmptyString => EmptyString
  | String c s' => if Ascii.eqb c "," then EmptyString else String c (before_comma s')
  end.

(** The characters [str.split()] treats as separators (ASCII range):
    tab, line feed, vertical tab, form feed, carriage return, the four
    information separators and the space. *)
Definition isspace (c : ascii) : bool :=
  let n := nat_of_ascii c in
  ((9 <=? n)%nat && (n <=? 13)%nat) || ((28 <=? n)%nat && (n <=? 32)%nat).

(** [s.split()], the argument-free form: maximal runs of characters that
    are not white space.  [cur] is the word being read, reversed. *)
Fixpoint split_ws (cur : list ascii) (s : string) : list string :=
  match s with
  | EmptyString =>
      match cur with [] => [] | _ => [string_of_list_ascii (rev cur)] end
  | String c s' =>
      if isspace c
      then match cur with
           | [] => split_ws [] s'
           | _ => string_of_list_ascii (rev cur) :: split_ws [] s'
           end
      else split_ws (c :: cur) s'
  end.

Definition split (s : string) : list string := split_ws [] s.

(** What the specification means by a substring match. *)
Definition occurs_in (k s : string) : Prop :=
  exists pre post : string, s = String.append pre (String.append k post).

End PyStr.

(** ** Industry categorization ([app/services/industry.py]) *)

Module IndustryService.

(** [self.categories], a dict literal: iteration follows insertion order. *)
Definition categories : list (string * list string) :=
  [ ("technology",
      ["software"; "it"; "cybersecurity"; "web development";
       "mobile apps"; "cloud computing"; "artificial intelligence"]);
    ("healthcare",
      ["medical"; "dental"; "pharmacy"; "wellness"; "fitness";
       "mental health"; "healthcare technology"]);
    ("retail",
      ["fashion"; "electronics"; "groceries"; "furniture";
       "e-commerce"; "luxury goods"; "sporting goods"]);
    ("services",
      ["consulting"; "legal"; "accounting"; "marketing";
       "design"; "cleaning"; "maintenance"]);
    ("hospitality",
      ["restaurants"; "hotels"; "tourism"; "events";
       "catering"; "travel"; "entertainment"]) ].

(** [any(keyword in name_lower for keyword in keywords)] *)
Definition any_keyword (keywords : list string) (name_lower : string) : bool :=
  existsb (fun keyword => PyStr.contains keyword name_lower) keywords.

(** The [for category, keywords in self.categories.items()] loop with its
    early [return], and the [return "other"] after it. *)
Fixpoint categorize_loop (items : list (string * list string))
         (name_lower : string) : string :=
  match items with
  | [] => "other"
  | (category, keywords) :: rest =>
      if any_keyword keywords name_lower then category
      else categorize_loop rest name_lower
  end.

Definition _categorize_industry (name : string) : string :=
  let name_lower := PyStr.lower name in
  categorize_loop categories name_lower.

(** A category matches when one of its keywords occurs in the name. *)
Definition keyword_match (keywords : list string) (name_lower : string) : Prop :=
  exists keyword, In keyword keywords /\ PyStr.occurs_in keyword name_lower.

End IndustryService.


(** ** Python exceptions and effects *)

Module Py.

(** The exception classes the services raise or catch.  All of them derive
    from [Exception]; [IntegrityError] derives from [SQLAlchemyError]. *)
Inductive exn : Type :=
| HTTPException (status_code : Z) (detail : string)
| IntegrityError (msg : string)
| SQLAlchemyError (msg : string)
| ClientError (msg : string)
| Exception (msg : string).

Definition string_of_Z (z : Z) : string :=
  DecimalString.NilZero.string_of_int (Z.to_int z).

(** [str(e)] *)
Definition str (e : exn) : string :=
  match e with
  | HTTPException status_code detail =>
      String.append (string_of_Z status_code) (String.append ": " detail)
  | IntegrityError msg | SQLAlchemyError msg | ClientError msg | Exception msg => msg
  end.

(** [isinstance(e, SQLAlchemyError)] *)
Definition is_SQLAlchemyError (e : exn) : bool :=
  match e with IntegrityError _ | SQLAlchemyError _ => true | _ => false end.

(** [isinstance(e, aiohttp.ClientError)] *)
Definition is_ClientError (e : exn) : bool :=
  match e with ClientError _ => true | _ => false end.

Definition HTTP_500_INTERNAL_SERVER_ERROR : Z := 500.
Definition HTTP_503_SERVICE_UNAVAILABLE : Z := 503.

(** Outcome of a call: a value, or an exception on its way up. *)
Inductive Res (A : Type) : Type :=
| Return (a : A)
| Raise (e : exn).
Arguments Return {A} a.
Arguments Raise {A} e.

(** Computations over a state [St] that may raise. *)
Definition M (St A : Type) : Type := St -> Res A * St.

Definition ret {St A} (a : A) : M St A := fun s => (Return a, s).

Definition bind {St A B} (c : M St A) (k : A -> M St B) : M St B :=
  fun s => match c s with
           | (Return a, s') => k a s'
           | (Raise e, s') => (Raise e, s')
           end.

Definition raise {St A} (e : exn) : M St A := fun s => (Raise e, s).

(** [try: c  except Exception as e: handler(e)] *)
Definition try_except {St A} (c : M St A) (handler : exn -> M St A) : M St A :=
  fun s => match c s with
           | (Return a, s') => (Return a, s')
           | (Raise e, s') => handler e s'
           end.

Definition get {St} : M St St := fun s => (Return s, s).
Definition modify {St} (f : St -> St) : M St unit := fun s => (Return tt, f s).

(** Run a computation on part of the state. *)
Definition zoom {St T A} (proj : St -> T) (upd : T -> St -> St)
           (c : M T A) : M St A :=
  fun s => let (r, t') := c (proj s) in (r, upd t' s).

End Py.

Import Py.

Declare Scope py_scope.
Delimit Scope py_scope with py.
Notation "x <- c1 ;; c2" := (Py.bind c1 (fun x => c2))
  (at level 100, c1 at next level, right associativity) : py_scope.
Notation "c1 ;; c2" := (Py.bind c1 (fun _ => c2))
  (at level 100, right associativity) : py_scope.
Local Open Scope py_scope.

(** ** Logging *)

Inductive Level := WARNING | ERROR.

(** A record handed to a module logger: level, format and arguments. *)
Record LogRecord := { levelno : Level; msg : string; args : list string }.

(** ** The completion client ([app/core/ai.py]) *)

Module Ai.

(** One entry of [response.choices]. *)
Record Choice := { message_content : string; finish_reason : string }.

(** What [client.chat.completions.create] answers. *)
Record ChatCompletion := { choices : list Choice; usage_total_tokens : Z }.

(** The arguments of one upstream request. *)
Record Request := {
  model : string;
  messages : list (string * string);
  max_tokens : Z;
  temperature : Q;
  presence_penalty : Q;
  frequency_penalty : Q
}.

(** The process-wide state the client touches: the remote provider (what
    its [n]-th request answers), how many requests were issued, the
    arguments of [time.sleep] so far, and the log. *)
Record World := {
  provider : nat -> Request -> Res ChatCompletion;
  requests : nat;
  slept : list Z;
  log : list LogRecord
}.

Definition issue (w : World) : World :=
  {| provider := provider w; requests := S (requests w);
     slept := slept w; log := log w |}.

Definition sleep_world (seconds : Z) (w : World) : World :=
  {| provider := provider w; requests := requests w;
     slept := slept w ++ [seconds]; log := log w |}.

Definition log_world (r : LogRecord) (w : World) : World :=
  {| provider := provider w; requests := requests w;
     slept := slept w; log := log w ++ [r] |}.

(** [time.sleep(seconds)] *)
Definition sleep (seconds : Z) : M World unit := modify (sleep_world seconds).

Definition logger_warning (m : string) (a : list string) : M World unit :=
  modify (log_world {| levelno := WARNING; msg := m; args := a |}).

Definition logger_error (m : string) (a : list string) : M World unit :=
  modify (log_world {| levelno := ERROR; msg := m; args := a |}).

(** [settings.OPENAI_MODEL], [settings.MAX_TOKENS] *)
Definition OPENAI_MODEL : string := "gpt-4-turbo-preview".
Definition MAX_TOKENS : Z := 2000.

Definition _get_system_prompt : string := "
        You are an expert content writer specializing in local business blogging.
        Your writing is:
        1. Professional and authoritative
        2. Locally relevant and specific
        3. SEO-optimized
        4. Engaging and actionable
        5. Well-structured with clear headings
        
        Always include:
        - Local statistics or references when possible
        - Industry-specific insights
        - Practical examples
        - Clear calls-to-action
        ".

Definition _create_blog_prompt (industry location topic style : string) : string :=
  String.concat EmptyString [ "
        Create a detailed blog post for a "; industry; " business in "; location; ".
        Topic: "; topic; "
        Style: "; style; "
        
        The blog post should:
        1. Be locally relevant to "; location; "
        2. Include industry-specific insights for "; industry; "
        3. Be SEO-friendly with appropriate headings
        4. Include practical examples and actionable advice
        5. Maintain a "; style; " tone throughout
        
        Please structure the post with:
        - An engaging introduction
        - 3-4 main sections with subheadings
        - Practical examples or case studies
        - A clear conclusion with call-to-action
        " ].

(** [max_tokens or settings.MAX_TOKENS]: [None] and [0] are both falsy. *)
Definition or_default (max_tokens : option Z) : Z :=
  match max_tokens with
  | Some n => if Z.eqb n 0 then MAX_TOKENS else n
  | None => MAX_TOKENS
  end.

Definition completion_request (prompt : string) (max_tokens : option Z) : Request :=
  {| model := OPENAI_MODEL;
     messages := [("system", _get_system_prompt); ("user", prompt)];
     max_tokens := or_default max_tokens;
     temperature := 7 # 10;
     presence_penalty := 3 # 10;
     frequency_penalty := 3 # 10 |}.

(** [_make_completion_request]: one upstream request. *)
Definition _make_completion_request (prompt : string) (max_tokens : option Z)
  : M World ChatCompletion :=
  fun w => (provider w (requests w) (completion_request prompt max_tokens), issue w).

(** The dict [generate_blog_content] returns. *)
Record Generated := { content : string; tokens_used : Z; finish_reason_ : string }.

(** The dict display in the [try] body; [response.choices[0]] raises
    [IndexError] on an empty list. *)
Definition build_result (response : ChatCompletion) : M World Generated :=
  match choices response with
  | c :: _ => ret {| content := message_content c;
                     tokens_used := usage_total_tokens response;
                     finish_reason_ := finish_reason c |}
  | [] => raise (Exception "list index out of range")
  end.

(** The body of the [try] of one loop iteration. *)
Definition attempt_body (prompt : string) (max_tokens : option Z) : M World Generated :=
  response <- _make_completion_request prompt max_tokens ;;
  build_result response.

(** [for attempt in range(self.max_retries)], written over the list
    [range(...)] evaluates to.  Falling out of the loop returns [None]. *)
Fixpoint retry_loop (max_retries : nat) (retry_delay : Z)
         (prompt : string) (max_tokens : option Z)
         (attempts : list nat) : M World (option Generated) :=
  match attempts with
  | [] => ret None
  | attempt :: rest =>
      try_except
        (g <- attempt_body prompt max_tokens ;; ret (Some g))
        (fun e =>
           if Nat.eqb attempt (max_retries - 1) then
             logger_error "Failed to generate blog content after {} attempts: {}"
                          [string_of_Z (Z.of_nat max_retries); str e] ;;
             raise e
           else
             logger_warning "Attempt {} failed: {}"
                            [string_of_Z (Z.of_nat (attempt + 1)); str e] ;;
             sleep (retry_delay * Z.of_nat (attempt + 1)) ;;
             retry_loop max_retries retry_delay prompt max_tokens rest)
  end.

(** [AIService.__init__] *)
Definition max_retries : nat := 3.
Definition retry_delay : Z := 1.

(** An f-string renders [None] as the text [None]. *)
Definition fmt (v : option string) : string := default "None" v.

Definition generate_blog_content (industry location topic : string)
           (style : option string) (max_tokens : option Z)
  : M World (option Generated) :=
  let prompt := _create_blog_prompt industry location topic (fmt style) in
  retry_loop max_retries retry_delay prompt max_tokens (seq 0 max_retries).

(** *** Token counting *)

(** A Python number: [count_tokens] is annotated [int] but its fallback
    yields a [float]. *)
Inductive number := PyInt (n : Z) | PyFloat (x : Q).

(** [count_tokens(text)].  [tokenizer] stands for
    [tiktoken.encoding_for_model(settings.OPENAI_MODEL).encode], the two
    calls of the [try] body: it gives the token ids, or the exception
    either call raised. *)
Definition count_tokens (tokenizer : string -> Res (list Z)) (text : string)
  : M World number :=
  try_except
    (fun w => match tokenizer text with
              | Return ids => (Return (PyInt (Z.of_nat (length ids))), w)
              | Raise e => (Raise e, w)
              end)
    (fun e =>
       logger_warning "Error counting tokens: {}" [str e] ;;
       ret (PyFloat (inject_Z (Z.of_nat (length (PyStr.split text))) * (13 # 10)))).

End Ai.

(** ** Location search ([app/services/location.py]) *)

Module LocationService.

(** One element of the JSON array the geocoder answers: the keys the
    service reads.  [None] is an absent key. *)
Record Result := {
  address : option (gmap string string);
  display_name : option string;
  type : option string;
  lat : option string;
  lon : option string;
  osm_type : option string;
  class : option string
}.

(** What [session.get] yields: the status line, and what
    [await response.json()] followed by the traversal of the decoded value
    gives: the array of results, or the exception raised by a body that
    is not such an array. *)
Record HttpResponse := { status : Z; json : Res (list Result) }.

(** [schemas.common.LocationSuggestion] *)
Record LocationSuggestion := {
  name : string;
  full_name : string;
  type_ : string;
  metadata : list (string * option string)
}.

(** The remote service and the log. *)
Record World := {
  http_get : string -> list (string * string) -> Res HttpResponse;
  log : list LogRecord
}.

Definition logger_error (m : string) (a : list string) : M World unit :=
  modify (fun w => {| http_get := http_get w;
                      log := log w ++ [{| levelno := ERROR; msg := m; args := a |}] |}).

Definition nominatim_url : string := "https://nominatim.openstreetmap.org/search".

(** [result.get("address", {})] *)
Definition address_of (result : Result) : gmap string string :=
  default ∅ (address result).

(** Truthiness of [address.get(key)]: present and not the empty string. *)
Definition truthy (v : option string) : bool :=
  match v with
  | Some s => negb (String.eqb s EmptyString)
  | None => false
  end.

Definition place_keys : list string :=
  ["city"; "town"; "village"; "suburb"; "municipality"].

(** The [for key in [...]] loop of [_get_place_name]; [None] when it runs to
    its end. *)
Fixpoint first_component (addr : gmap string string) (keys : list string)
  : option string :=
  match keys with
  | [] => None
  | key :: rest =>
      if truthy (addr !! key) then addr !! key
      else first_component addr rest
  end.

Definition _get_place_name (result : Result) : string :=
  let addr := address_of result in
  match first_component addr place_keys with
  | Some v => v
  | None => PyStr.before_comma (default EmptyString (display_name result))
  end.

(** [a or b] on optional strings *)
Definition py_or (a b : option string) : option string :=
  if truthy a then a else b.

(** [if x and x not in parts: parts.append(x)] *)
Definition append_new (x : option string) (parts : list string) : list string :=
  match x with
  | Some s =>
      if truthy x && negb (existsb (String.eqb s) parts) then parts ++ [s] else parts
  | None => parts
  end.

Definition _format_full_name (result : Result) : string :=
  let addr := address_of result in
  let parts := [] in
  let place_name := _get_place_name result in
  let parts := if negb (String.eqb place_name EmptyString) then parts ++ [place_name] else parts in
  let state := py_or (addr !! "state") (addr !! "province") in
  let parts := append_new state parts in
  let country := addr !! "country" in
  let parts := append_new country parts in
  PyStr.join ", " parts.

Definition suggestion (result : Result) : LocationSuggestion :=
  {| name := _get_place_name result;
     full_name := _format_full_name result;
     type_ := default "unknown" (type result);
     metadata := [("lat", lat result); ("lon", lon result);
                  ("osm_type", osm_type result); ("class", class result)] |}.

(** The body of the [try] of [search_locations]. *)
Definition search_body (query : string) (limit : Z) : M World (list LocationSuggestion) :=
  let params := [("q", query); ("format", "json");
                 ("limit", string_of_Z limit); ("addressdetails", "1")] in
  w <- get ;;
  match http_get w nominatim_url params with
  | Raise e => raise e
  | Return response =>
      if negb (Z.eqb (status response) 200) then
        raise (HTTPException HTTP_503_SERVICE_UNAVAILABLE
                             "Geocoding service unavailable")
      else
        match json response with
        | Raise e => raise e
        | Return results => ret (map suggestion results)
        end
  end.

(** [search_locations]: the two [except] clauses are tried in order. *)
Definition search_locations (query : string) (limit : Z)
  : M World (list LocationSuggestion) :=
  try_except (search_body query limit)
    (fun e =>
       if is_ClientError e then
         logger_error "Error searching locations: {}" [str e] ;;
         raise (HTTPException HTTP_503_SERVICE_UNAVAILABLE
                              "Error connecting to geocoding service")
       else
         logger_error "Unexpected error in location search: {}" [str e] ;;
         raise (HTTPException HTTP_500_INTERNAL_SERVER_ERROR
                              "Error processing location search")).


End LocationService.

(** ** The models ([app/models]) *)

(** A server-side SQL expression stored where a value is expected. *)
Inductive SqlExpr := FuncNow.

(** The value of a key of a JSON column, as the services build it: a text,
    or an SQL expression object. *)
Inductive JsonField := JStr (s : string) | JSql (e : SqlExpr).

(** A dict bound for a JSON column, in insertion order. *)
Definition Json : Type := list (string * JsonField).

Module Industry.
(** [id], [created_at] and [updated_at] come from [Base]; they are [None]
    until the row is flushed. *)
Record t := {
  id : option Z;
  created_at : option Z;
  updated_at : option Z;
  name : string;
  description : option string;
  category : option string
}.
End Industry.

Module Location.
Record t := {
  id : option Z;
  created_at : option Z;
  updated_at : option Z;
  name : string;
  state : option string;
  country : string;
  timezone : option string;
  metadata : option Json
}.
End Location.

Module BlogPost.
Record t := {
  id : option Z;
  created_at : option Z;
  updated_at : option Z;
  industry_id : option Z;
  location_id : option Z;
  topic : string;
  content : string;
  style : option string;
  tokens_used : option Z;
  metadata : option Json
}.
End BlogPost.

(** An ORM object of one of the three mapped classes. *)
Inductive Row :=
| RowIndustry (i : Industry.t)
| RowLocation (l : Location.t)
| RowPost (p : BlogPost.t).

(** ** The datastore and the ORM session *)

Module Db.

(** The committed tables, in row order. *)
Record Store := {
  industries : list Industry.t;
  locations : list Location.t;
  posts : list BlogPost.t
}.

(** A [Session]: the committed store it talks to, the objects added and not
    yet committed, and the environment: [faults n] is the exception the
    [n]-th round trip to the datastore raises, if any; [clock n] is the
    [n]-th reading of [datetime.utcnow]. *)
Record Session := {
  store : Store;
  pending : list Row;
  faults : nat -> option exn;
  ops : nat;
  clock : nat -> Z;
  ticks : nat
}.

Definition with_store (st : Store) (s : Session) : Session :=
  {| store := st; pending := pending s; faults := faults s; ops := ops s;
     clock := clock s; ticks := ticks s |}.
Definition with_pending (p : list Row) (s : Session) : Session :=
  {| store := store s; pending := p; faults := faults s; ops := ops s;
     clock := clock s; ticks := ticks s |}.
Definition with_ops (n : nat) (s : Session) : Session :=
  {| store := store s; pending := pending s; faults := faults s; ops := n;
     clock := clock s; ticks := ticks s |}.
Definition with_ticks (n : nat) (s : Session) : Session :=
  {| store := store s; pending := pending s; faults := faults s; ops := ops s;
     clock := clock s; ticks := n |}.

(** One round trip to the datastore: it raises what the environment says. *)
Definition round_trip : M Session unit :=
  fun s => match faults s (ops s) with
           | Some e => (Raise e, with_ops (S (ops s)) s)
           | None => (Return tt, with_ops (S (ops s)) s)
           end.

(** The integer primary key handed to a new row. *)
Definition next_id (ids : list (option Z)) : Z :=
  (1 + fold_right (fun i acc => Z.max (default 0 i) acc) 0 ids)%Z.

(** A column default: the value given, else [datetime.utcnow()]. *)
Definition or_now (v : option Z) (now : Z) : option Z :=
  match v with Some _ => v | None => Some now end.

(** INSERT of one pending object; the constraints of the table are checked:
    [Industry.name] is unique, the foreign keys of a post are not null. *)
Definition insert_row (t1 t2 : Z) (r : Row) (st : Store) : Res (Row * Store) :=
  match r with
  | RowIndustry i =>
      if existsb (fun j => String.eqb (Industry.name j) (Industry.name i)) (industries st)
      then Raise (IntegrityError "UNIQUE constraint failed: industry.name")
      else
        let i' := {| Industry.id := Some (next_id (map Industry.id (industries st)));
                     Industry.created_at := or_now (Industry.created_at i) t1;
                     Industry.updated_at := or_now (Industry.updated_at i) t2;
                     Industry.name := Industry.name i;
                     Industry.description := Industry.description i;
                     Industry.category := Industry.category i |} in
        Return (RowIndustry i',
                {| industries := industries st ++ [i'];
                   locations := locations st; posts := posts st |})
  | RowLocation l =>
      let l' := {| Location.id := Some (next_id (map Location.id (locations st)));
                   Location.created_at := or_now (Location.created_at l) t1;
                   Location.updated_at := or_now (Location.updated_at l) t2;
                   Location.name := Location.name l;
                   Location.state := Location.state l;
                   Location.country := Location.country l;
                   Location.timezone := Location.timezone l;
                   Location.metadata := Location.metadata l |} in
      Return (RowLocation l',
              {| industries := industries st;
                 locations := locations st ++ [l']; posts := posts st |})
  | RowPost p =>
      match BlogPost.industry_id p, BlogPost.location_id p with
      | Some _, Some _ =>
          let p' := {| BlogPost.id := Some (next_id (map BlogPost.id (posts st)));
                       BlogPost.created_at := or_now (BlogPost.created_at p) t1;
                       BlogPost.updated_at := or_now (BlogPost.updated_at p) t2;
                       BlogPost.industry_id := BlogPost.industry_id p;
                       BlogPost.location_id := BlogPost.location_id p;
                       BlogPost.topic := BlogPost.topic p;
                       BlogPost.content := BlogPost.content p;
                       BlogPost.style := Some (default "professional" (BlogPost.style p));
                       BlogPost.tokens_used := BlogPost.tokens_used p;
                       BlogPost.metadata := BlogPost.metadata p |} in
          Return (RowPost p',
                  {| industries := industries st; locations := locations st;
                     posts := posts st ++ [p'] |})
      | _, _ => Raise (IntegrityError "NOT NULL constraint failed: blogpost")
      end
  end.

(** The flush of the pending objects, in the order they were added.  Each
    insert reads the clock twice (the defaults of the two timestamps). *)
Fixpoint flush (clk : nat -> Z) (tk : nat) (rows : list Row) (st : Store)
  : Res (list Row * Store * nat) :=
  match rows with
  | [] => Return ([], st, tk)
  | r :: rest =>
      match insert_row (clk tk) (clk (S tk)) r st with
      | Raise e => Raise e
      | Return (r', st') =>
          match flush clk (S (S tk)) rest st' with
          | Raise e => Raise e
          | Return (rs, st'', tk') => Return (r' :: rs, st'', tk')
          end
      end
  end.

(** [db.add(obj)] *)
Definition add (r : Row) : M Session unit :=
  modify (fun s => with_pending (pending s ++ [r]) s).

(** [db.commit()]: flush and commit as one transaction.  The Python objects
    are updated in place by the flush; here the flushed objects are handed
    back, in the order they were added.  When the commit raises, the store
    keeps its rows and the session keeps its pending objects until
    [rollback]. *)
Definition commit : M Session (list Row) :=
  round_trip ;;
  s <- get ;;
  match flush (clock s) (ticks s) (pending s) (store s) with
  | Raise e => raise e
  | Return (rows, st', tk') =>
      modify (fun s => with_ticks tk' (with_pending [] (with_store st' s))) ;;
      ret rows
  end.

(** [db.rollback()] *)
Definition rollback : M Session unit :=
  modify (with_pending []).

Definition InvalidRequestError : exn :=
  SQLAlchemyError "Could not refresh instance".

(** [db.query(Industry).filter(Industry.name == name).first()] *)
Definition first_industry_named (name : string) : M Session (option Industry.t) :=
  round_trip ;;
  s <- get ;;
  ret (find (fun i => String.eqb (Industry.name i) name) (industries (store s))).

Definition first_location_named (name : string) : M Session (option Location.t) :=
  round_trip ;;
  s <- get ;;
  ret (find (fun l => String.eqb (Location.name l) name) (locations (store s))).

Definition same_id (a b : option Z) : bool :=
  match a, b with Some x, Some y => Z.eqb x y | _, _ => false end.

(** [db.refresh(obj)]: the row is read again by primary key. *)
Definition refresh_industry (i : Industry.t) : M Session Industry.t :=
  round_trip ;;
  s <- get ;;
  match find (fun j => same_id (Industry.id j) (Industry.id i)) (industries (store s)) with
  | Some j => ret j
  | None => raise InvalidRequestError
  end.

Definition refresh_location (l : Location.t) : M Session Location.t :=
  round_trip ;;
  s <- get ;;
  match find (fun j => same_id (Location.id j) (Location.id l)) (locations (store s)) with
  | Some j => ret j
  | None => raise InvalidRequestError
  end.

Definition refresh_post (p : BlogPost.t) : M Session BlogPost.t :=
  round_trip ;;
  s <- get ;;
  match find (fun j => same_id (BlogPost.id j) (BlogPost.id p)) (posts (store s)) with
  | Some j => ret j
  | None => raise InvalidRequestError
  end.

End Db.

(** ** The state the services run in *)

Record World := {
  db : Db.Session;
  ai : Ai.World;
  log : list LogRecord
}.

Definition in_db {A} (c : M Db.Session A) : M World A :=
  zoom db (fun d w => {| db := d; ai := ai w; log := log w |}) c.

Definition in_ai {A} (c : M Ai.World A) : M World A :=
  zoom ai (fun a w => {| db := db w; ai := a; log := log w |}) c.

Definition logger_error (m : string) (a : list string) : M World unit :=
  modify (fun w => {| db := db w; ai := ai w;
                      log := log w ++ [{| levelno := ERROR; msg := m; args := a |}] |}).

(** ** Generic CRUD ([app/services/base.py]) *)

Module BaseService.

(** A value a filter compares a column with. *)
Inductive value := VNone | VInt (z : Z) | VStr (s : string) | VJson (d : Json).

Global Instance SqlExpr_eq_dec : EqDecision SqlExpr.
Proof. solve_decision. Defined.

Global Instance JsonField_eq_dec : EqDecision JsonField.
Proof. solve_decision. Defined.

Global Instance value_eq_dec : EqDecision value.
Proof. unfold Json. solve_decision. Defined.

(** What [getattr(self.model, field)] finds on a mapped class: a column, a
    relationship, or some other class attribute (a method, a property,
    [__tablename__]); in the last case [same v] is the Python truth value
    of [getattr(self.model, field) == v]. *)
Inductive Attr (R : Type) : Type :=
| Column (read : R -> value)
| Relationship
| ClassAttr (same : value -> bool).
Arguments Column {R} read.
Arguments Relationship {R}.
Arguments ClassAttr {R} same.

(** A mapped class, as the generic service uses it: [attribute field] is
    [None] exactly when [hasattr(self.model, field)] is false. *)
Class Model (R : Type) := {
  __name__ : string;
  table : Db.Store -> list R;
  attribute : string -> option (Attr R)
}.

Section Generic.
Context {R : Type} `{Model R}.

(** The [for field, value in filters.items()] loop: the criteria added to
    the query.  Comparing a relationship with [==] raises. *)
Fixpoint apply_filters (items : list (string * value)) (criteria : list (R -> bool))
  : Res (list (R -> bool)) :=
  match items with
  | [] => Return criteria
  | (field, v) :: rest =>
      match attribute field with
      | None => apply_filters rest criteria
      | Some (Column read) =>
          apply_filters rest (criteria ++ [fun r => bool_decide (read r = v)])
      | Some Relationship =>
          Raise (SQLAlchemyError "Can't compare a collection to an object or collection")
      | Some (ClassAttr same) =>
          apply_filters rest (criteria ++ [fun _ => same v])
      end
  end.

(** The query built from [filters]; [if filters:] skips [None] and the
    empty dict, for which the loop would do nothing anyway. *)
Definition build_query (filters : option (list (string * value)))
  : M World (list (R -> bool)) :=
  match filters with
  | None | Some [] => ret []
  | Some items =>
      match apply_filters items [] with
      | Return criteria => ret criteria
      | Raise e => raise e
      end
  end.

(** The rows a query selects. *)
Definition select (criteria : list (R -> bool)) (st : Db.Store) : list R :=
  List.filter (fun r => forallb (fun c => c r) criteria) (table st).

(** [except SQLAlchemyError as e:] of the read operations. *)
Definition database_error (operation : string) (e : exn) {A} : M World A :=
  if is_SQLAlchemyError e then
    logger_error "Database error {} {}: {}" [operation; __name__; str e] ;;
    raise (HTTPException HTTP_500_INTERNAL_SERVER_ERROR "Database error occurred")
  else raise e.

Definition get_multi (skip limit : nat) (filters : option (list (string * value)))
  : M World (list R) :=
  try_except
    (criteria <- build_query filters ;;
     in_db Db.round_trip ;;
     w <- get ;;
     ret (firstn limit (skipn skip (select criteria (Db.store (db w))))))
    (fun e => database_error "listing" e).

Definition count (filters : option (list (string * value))) : M World nat :=
  try_except
    (criteria <- build_query filters ;;
     in_db Db.round_trip ;;
     w <- get ;;
     ret (length (select criteria (Db.store (db w)))))
    (fun e => database_error "counting" e).

(** [filters] without the key [field]. *)
Definition without (field : string) (items : list (string * value))
  : list (string * value) :=
  List.filter (fun kv => negb (String.eqb (fst kv) field)) items.

End Generic.

End BaseService.

(** ** The mapped classes as the generic service sees them *)

Module Models.
Import BaseService.

Definition of_int (v : option Z) : value :=
  match v with Some z => VInt z | None => VNone end.
Definition of_str (v : option string) : value :=
  match v with Some s => VStr s | None => VNone end.
Definition of_json (v : option Json) : value :=
  match v with Some d => VJson d | None => VNone end.

(** Attributes every model takes from [Base]: three columns, three methods
    and the table name.  The attributes a class inherits from [object] and
    from the declarative machinery are not listed. *)
Definition base_attribute {R} (tablename : string)
           (id created_at updated_at : R -> option Z) (field : string)
  : option (Attr R) :=
  if String.eqb field "id" then Some (Column (fun r => of_int (id r)))
  else if String.eqb field "created_at" then Some (Column (fun r => of_int (created_at r)))
  else if String.eqb field "updated_at" then Some (Column (fun r => of_int (updated_at r)))
  else if String.eqb field "dict" then Some (ClassAttr (fun _ => false))
  else if String.eqb field "update" then Some (ClassAttr (fun _ => false))
  else if String.eqb field "from_dict" then Some (ClassAttr (fun _ => false))
  else if String.eqb field "__tablename__"
  then Some (ClassAttr (fun v => bool_decide (v = VStr tablename)))
  else None.

Global Instance industry_model : Model Industry.t := {|
  __name__ := "Industry";
  table := Db.industries;
  attribute field :=
    if String.eqb field "name" then Some (Column (fun r => VStr (Industry.name r)))
    else if String.eqb field "description"
    then Some (Column (fun r => of_str (Industry.description r)))
    else if String.eqb field "category"
    then Some (Column (fun r => of_str (Industry.category r)))
    else if String.eqb field "posts" then Some Relationship
    else base_attribute "industry" Industry.id Industry.created_at Industry.updated_at field
|}.

Global Instance location_model : Model Location.t := {|
  __name__ := "Location";
  table := Db.locations;
  attribute field :=
    if String.eqb field "name" then Some (Column (fun r => VStr (Location.name r)))
    else if String.eqb field "state" then Some (Column (fun r => of_str (Location.state r)))
    else if String.eqb field "country" then Some (Column (fun r => VStr (Location.country r)))
    else if String.eqb field "timezone"
    then Some (Column (fun r => of_str (Location.timezone r)))
    else if String.eqb field "metadata"
    then Some (Column (fun r => of_json (Location.metadata r)))
    else if String.eqb field "posts" then Some Relationship
    else if String.eqb field "full_name" then Some (ClassAttr (fun _ => false))
    else base_attribute "location" Location.id Location.created_at Location.updated_at field
|}.

Global Instance blogpost_model : Model BlogPost.t := {|
  __name__ := "BlogPost";
  table := Db.posts;
  attribute field :=
    if String.eqb field "industry_id"
    then Some (Column (fun r => of_int (BlogPost.industry_id r)))
    else if String.eqb field "location_id"
    then Some (Column (fun r => of_int (BlogPost.location_id r)))
    else if String.eqb field "topic" then Some (Column (fun r => VStr (BlogPost.topic r)))
    else if String.eqb field "content" then Some (Column (fun r => VStr (BlogPost.content r)))
    else if String.eqb field "style" then Some (Column (fun r => of_str (BlogPost.style r)))
    else if String.eqb field "tokens_used"
    then Some (Column (fun r => of_int (BlogPost.tokens_used r)))
    else if String.eqb field "metadata"
    then Some (Column (fun r => of_json (BlogPost.metadata r)))
    else if String.eqb field "industry" then Some Relationship
    else if String.eqb field "location" then Some Relationship
    else base_attribute "blogpost" BlogPost.id BlogPost.created_at BlogPost.updated_at field
|}.

End Models.

(** ** Posts ([app/services/blog.py]) *)

Module BlogService.

(** The object a pending [Industry] has become once the commit flushed it:
    the last object added is the last one flushed. *)
Definition flushed_industry (rows : list Row) (transient : Industry.t) : Industry.t :=
  match last rows with Some (RowIndustry i) => i | _ => transient end.

Definition flushed_location (rows : list Row) (transient : Location.t) : Location.t :=
  match last rows with Some (RowLocation l) => l | _ => transient end.


(** [Industry(name=name)] *)
Definition new_industry (name : string) : Industry.t :=
  {| Industry.id := None; Industry.created_at := None; Industry.updated_at := None;
     Industry.name := name; Industry.description := None; Industry.category := None |}.

(** [Location(name=name, country="Unknown")] *)
Definition new_location (name : string) : Location.t :=
  {| Location.id := None; Location.created_at := None; Location.updated_at := None;
     Location.name := name; Location.state := None; Location.country := "Unknown";
     Location.timezone := None; Location.metadata := None |}.

Definition _get_or_create_industry (name : string) : M World Industry.t :=
  industry <- in_db (Db.first_industry_named name) ;;
  match industry with
  | Some i => ret i
  | None =>
      let industry := new_industry name in
      in_db (Db.add (RowIndustry industry)) ;;
      flushed <- in_db Db.commit ;;
      in_db (Db.refresh_industry (flushed_industry flushed industry))
  end.

Definition _get_or_create_location (name : string) : M World Location.t :=
  location <- in_db (Db.first_location_named name) ;;
  match location with
  | Some l => ret l
  | None =>
      let location := new_location name in
      in_db (Db.add (RowLocation location)) ;;
      flushed <- in_db Db.commit ;;
      in_db (Db.refresh_location (flushed_location flushed location))
  end.




(** *** Statistics *)

(** Python's [round] rounds halves to the even neighbour. *)
Definition round_half_even (q : Q) : Z :=
  let f := Qfloor q in
  match Qcompare (q - inject_Z f)%Q (1 # 2)%Q with
  | Lt => f
  | Gt => (f + 1)%Z
  | Eq => if Z.even f then f else (f + 1)%Z
  end.

(** [round(x, 2)] on an exact number: the nearest hundredth, a half going
    to the even neighbour.  (On a double Python rounds the exact binary value,
    which near a decimal half that no double represents lies on one side of
    it; the statements about the statistics only use that the result is a
    nearest hundredth.) *)
Definition round2 (x : Q) : Q :=
  (inject_Z (round_half_even (x * 100)) / 100)%Q.

(** [func.avg(BlogPost.tokens_used)]: the mean of the values that are not
    null, null when there is none. *)
Definition sql_avg (values : list (option Z)) : option Q :=
  match omap id values with
  | [] => None
  | v :: vs =>
      Some (inject_Z (fold_right Z.add 0%Z (v :: vs))
            / inject_Z (Z.of_nat (length (v :: vs))))%Q
  end.

(** [x or 0]: null and zero are both falsy. *)
Definition or_zero (x : option Q) : Q :=
  match x with
  | Some q => if Qeq_bool q 0 then 0%Q else q
  | None => 0%Q
  end.

(** The names of the parents that have posts, each once, with the number
    of rows of the join (a GROUP BY over an inner join). *)
Definition grouped_counts (joined : list string) : list (string * nat) :=
  map (fun n => (n, length (List.filter (String.eqb n) joined))) (remove_dups joined).

Definition joined_industry_names (st : Db.Store) : list string :=
  flat_map (fun i =>
              map (fun _ => Industry.name i)
                  (List.filter (fun p => Db.same_id (BlogPost.industry_id p) (Industry.id i))
                               (Db.posts st)))
           (Db.industries st).

Definition joined_location_names (st : Db.Store) : list string :=
  flat_map (fun l =>
              map (fun _ => Location.name l)
                  (List.filter (fun p => Db.same_id (BlogPost.location_id p) (Location.id l))
                               (Db.posts st)))
           (Db.locations st).

(** [ORDER BY created_at DESC] then [first()]: the latest timestamp. *)
Definition latest (stamps : list (option Z)) : option Z :=
  match omap id stamps with
  | [] => None
  | t :: ts => Some (fold_right Z.max t ts)
  end.

Record Stats := {
  total_posts : nat;
  posts_by_industry : list (string * nat);
  posts_by_location : list (string * nat);
  average_tokens : Q;
  last_generated : option Z
}.

(** The four aggregate queries, one round trip each. *)
Definition stats_body : M World Stats :=
  total <- BaseService.count (R := BlogPost.t) None ;;
  in_db Db.round_trip ;;
  w1 <- get ;;
  let industry_stats := grouped_counts (joined_industry_names (Db.store (db w1))) in
  in_db Db.round_trip ;;
  w2 <- get ;;
  let location_stats := grouped_counts (joined_location_names (Db.store (db w2))) in
  in_db Db.round_trip ;;
  w3 <- get ;;
  let avg_tokens := or_zero (sql_avg (map BlogPost.tokens_used (Db.posts (Db.store (db w3))))) in
  in_db Db.round_trip ;;
  w4 <- get ;;
  let last := latest (map BlogPost.created_at (Db.posts (Db.store (db w4)))) in
  ret {| total_posts := total;
         posts_by_industry := industry_stats;
         posts_by_location := location_stats;
         average_tokens := round2 avg_tokens;
         last_generated := last |}.

Definition get_blog_stats : M World Stats :=
  try_except stats_body
    (fun e =>
       logger_error "Error getting blog stats: {}" [str e] ;;
       raise (HTTPException HTTP_500_INTERNAL_SERVER_ERROR
                            "Error retrieving blog statistics")).

(** The mean the specification speaks of: the sum of the token counts over
    the number of posts. *)
Definition mean (tokens : list Z) : Q :=
  (inject_Z (fold_right Z.add 0%Z tokens) / inject_Z (Z.of_nat (length tokens)))%Q.

End BlogService.

(** ** Vocabulary of the statements *)

(** What the [k]-th attempt from world [w] on (counting from 0) comes to:
    the answer of the provider to the request it issues, read as the [try]
    body reads it. *)
Definition attempt_result (w : Ai.World) (prompt : string) (max_tokens : option Z)
           (k : nat) : Res Ai.Generated :=
  match Ai.provider w (Ai.requests w + k) (Ai.completion_request prompt max_tokens) with
  | Return response =>
      match Ai.choices response with
      | c :: _ => Return {| Ai.content := Ai.message_content c;
                            Ai.tokens_used := Ai.usage_total_tokens response;
                            Ai.finish_reason_ := Ai.finish_reason c |}
      | [] => Raise (Exception "list index out of range")
      end
  | Raise e => Raise e
  end.

(** The pauses after failed attempts number [a+1], ..., [a+k]. *)
Definition backoff (retry_delay : Z) (a k : nat) : list Z :=
  map (fun attempt => (retry_delay * Z.of_nat (attempt + 1))%Z) (seq a k).

(** Total time slept. *)
Definition total_sleep (pauses : list Z) : Z := fold_right Z.add 0%Z pauses.

(** The number of words of a text, counted where they begin: at a character
    that is not white space and stands first or behind white space. *)
Fixpoint word_starts (after_space : bool) (s : string) : nat :=
  match s with
  | EmptyString => 0
  | String c s' =>
      (if after_space && negb (PyStr.isspace c) then 1 else 0)
      + word_starts (PyStr.isspace c) s'
  end.

Definition word_count (text : string) : nat := word_starts true text.

(** *** Worlds and inputs of the worked examples *)

(** A provider that fails twice, then answers. *)
Definition flaky_world : Ai.World :=
  {| Ai.provider := fun n _ =>
       if (n <? 2)%nat then Raise (Exception "upstream timeout")
       else Return {| Ai.choices := [{| Ai.message_content := "Sourdough is back.";
                                        Ai.finish_reason := "stop" |}];
                      Ai.usage_total_tokens := 321 |};
     Ai.requests := 0; Ai.slept := []; Ai.log := [] |}.

(** A tokenizer that knows no model. *)
Definition no_tokenizer (text : string) : Res (list Z) :=
  Raise (Exception "Could not automatically map gpt-4-turbo-preview to a tokeniser").

(** The geocoding result of the worked example. *)
Definition austin : LocationService.Result :=
  {| LocationService.address :=
       Some (<["city" := "Austin"]> (<["state" := "Texas"]> (<["country" := "USA"]> ∅)));
     LocationService.display_name := Some "Austin, Travis County, Texas, USA";
     LocationService.type := Some "city";
     LocationService.lat := Some "30.2711286";
     LocationService.lon := Some "-97.7436995";
     LocationService.osm_type := Some "relation";
     LocationService.class := Some "boundary" |}.

(** A geocoder that answers every request with status [code] and the
    results [body]. *)
Definition geocoder_answering (code : Z) (body : Res (list LocationService.Result))
  : LocationService.World :=
  {| LocationService.http_get := fun _ _ =>
       Return {| LocationService.status := code; LocationService.json := body |};
     LocationService.log := [] |}.

(** A geocoder that cannot be reached. *)
Definition geocoder_unreachable : LocationService.World :=
  {| LocationService.http_get := fun _ _ =>
       Raise (ClientError "Cannot connect to host nominatim.openstreetmap.org:443");
     LocationService.log := [] |}.

(** A session on a store with two industries and one location, with a
    datastore that never fails and a clock that counts. *)
Definition bakery : Industry.t :=
  {| Industry.id := Some 1%Z; Industry.created_at := Some 10%Z;
     Industry.updated_at := Some 10%Z; Industry.name := "Bakery";
     Industry.description := None; Industry.category := None |}.

Definition dentist : Industry.t :=
  {| Industry.id := Some 2%Z; Industry.created_at := Some 20%Z;
     Industry.updated_at := Some 20%Z; Industry.name := "Family Dentistry";
     Industry.description := Some "Dental care"; Industry.category := Some "other" |}.

Definition austin_row : Location.t :=
  {| Location.id := Some 1%Z; Location.created_at := Some 10%Z;
     Location.updated_at := Some 10%Z; Location.name := "Austin";
     Location.state := None; Location.country := "Unknown";
     Location.timezone := None; Location.metadata := None |}.

Definition post_with (id tokens : Z) : BlogPost.t :=
  {| BlogPost.id := Some id; BlogPost.created_at := Some (100 + id)%Z;
     BlogPost.updated_at := Some (100 + id)%Z;
     BlogPost.industry_id := Some 1%Z; BlogPost.location_id := Some 1%Z;
     BlogPost.topic := "Sourdough trends"; BlogPost.content := "Sourdough is back.";
     BlogPost.style := Some "casual"; BlogPost.tokens_used := Some tokens;
     BlogPost.metadata := None |}.

Definition session_on (st : Db.Store) (faults : nat -> option exn) : Db.Session :=
  {| Db.store := st; Db.pending := []; Db.faults := faults; Db.ops := 0;
     Db.clock := fun n => (1000 + Z.of_nat n)%Z; Db.ticks := 0 |}.

Definition world_on (st : Db.Store) (faults : nat -> option exn) : World :=
  {| db := session_on st faults; ai := flaky_world; log := [] |}.

Definition never : nat -> option exn := fun _ => None.

Definition demo_store : Db.Store :=
  {| Db.industries := [bakery; dentist]; Db.locations := [austin_row];
     Db.posts := [post_with 1 100; post_with 2 200; post_with 3 300] |}.


(** The world after one round trip that did not fail. *)
Definition after_round_trip (w : World) : World :=
  {| db := Db.with_ops (S (Db.ops (db w))) (db w); ai := ai w; log := log w |}.

(** The datastore answers every round trip of the session. *)
Definition no_faults (w : World) : Prop :=
  forall n, Db.faults (db w) n = None.



(** ** The rest of the services *)

(** *** Deleting through the session *)

Module DbDelete.

(** DELETE of a persistent object.  The relationships [Industry.posts] and
    [Location.posts] cascade ([cascade="all, delete-orphan"]): the posts of a
    deleted parent go with it.  A post has no cascade of its own. *)
Definition remove_row (target : Row) (st : Db.Store) : Db.Store :=
  match target with
  | RowIndustry i =>
      {| Db.industries :=
           List.filter (fun j => negb (Db.same_id (Industry.id j) (Industry.id i)))
                       (Db.industries st);
         Db.locations := Db.locations st;
         Db.posts :=
           List.filter (fun p => negb (Db.same_id (BlogPost.industry_id p) (Industry.id i)))
                       (Db.posts st) |}
  | RowLocation l =>
      {| Db.industries := Db.industries st;
         Db.locations :=
           List.filter (fun j => negb (Db.same_id (Location.id j) (Location.id l)))
                       (Db.locations st);
         Db.posts :=
           List.filter (fun p => negb (Db.same_id (BlogPost.location_id p) (Location.id l)))
                       (Db.posts st) |}
  | RowPost p =>
      {| Db.industries := Db.industries st;
         Db.locations := Db.locations st;
         Db.posts :=
           List.filter (fun q => negb (Db.same_id (BlogPost.id q) (BlogPost.id p)))
                       (Db.posts st) |}
  end.

(** [db.delete(obj)] followed by [db.commit()]: one transaction that inserts
    what is pending and deletes [obj].  ([db.delete] only marks the object;
    the session of the embedding keeps no such mark between the two calls.) *)
Definition delete_commit (target : Row) : M Db.Session unit :=
  Db.round_trip ;;
  s <- get ;;
  match Db.flush (Db.clock s) (Db.ticks s) (Db.pending s) (Db.store s) with
  | Raise e => raise e
  | Return (_, st', tk') =>
      modify (fun s => Db.with_ticks tk'
                         (Db.with_pending [] (Db.with_store (remove_row target st') s)))
  end.

End DbDelete.

(** *** [BaseService.get] and [BaseService.delete] *)

Module Crud.
Import BaseService.

(** How an object of a mapped class goes into the unit of work. *)
Class Mapped (R : Type) := { as_row : R -> Row }.

Global Instance industry_mapped : Mapped Industry.t := {| as_row := RowIndustry |}.
Global Instance location_mapped : Mapped Location.t := {| as_row := RowLocation |}.
Global Instance blogpost_mapped : Mapped BlogPost.t := {| as_row := RowPost |}.

Section Generic.
Context {R : Type} `{Model R} `{Mapped R}.

(** [db.query(self.model).filter(self.model.id == id).first()]; the
    expression [self.model.id == id] is read as in the filters of
    [get_multi]. *)
Definition first_by_id (id : Z) : M World (option R) :=
  match attribute "id" with
  | Some (Column read) =>
      in_db Db.round_trip ;;
      w <- Py.get ;;
      ret (find (fun r => bool_decide (read r = VInt id)) (table (Db.store (db w))))
  | Some Relationship =>
      raise (SQLAlchemyError "Can't compare a collection to an object or collection")
  | Some (ClassAttr same) =>
      in_db Db.round_trip ;;
      w <- Py.get ;;
      ret (find (fun _ => same (VInt id)) (table (Db.store (db w))))
  | None => raise (Exception "type object has no attribute 'id'")
  end.

Definition get (id : Z) (raise_not_found : bool) : M World (option R) :=
  try_except
    (obj <- first_by_id id ;;
     match obj with
     | None =>
         if raise_not_found
         then raise (HTTPException 404 (String.append __name__ " not found"))
         else ret None
     | Some r => ret (Some r)
     end)
    (fun e => database_error "retrieving" e).

Definition delete (id : Z) (raise_not_found : bool) : M World (option R) :=
  try_except
    (obj <- get id raise_not_found ;;
     match obj with
     | Some r => in_db (DbDelete.delete_commit (as_row r)) ;; ret (Some r)
     | None => ret None
     end)
    (fun e =>
       if is_SQLAlchemyError e then
         in_db Db.rollback ;;
         logger_error "Database error deleting {}: {}" [__name__; str e] ;;
         raise (HTTPException HTTP_500_INTERNAL_SERVER_ERROR "Database error occurred")
       else raise e).

End Generic.

End Crud.

(** *** The rest of [app/services/industry.py] *)

Module IndustryOps.

(** [Industry(name=name, description=description, category=category)] *)
Definition categorized (name : string) (description : option string) : Industry.t :=
  {| Industry.id := None; Industry.created_at := None; Industry.updated_at := None;
     Industry.name := name; Industry.description := description;
     Industry.category := Some (IndustryService._categorize_industry name) |}.

Definition create_with_category (name : string) (description : option string)
  : M World Industry.t :=
  try_except
    (let industry := categorized name description in
     in_db (Db.add (RowIndustry industry)) ;;
     flushed <- in_db Db.commit ;;
     in_db (Db.refresh_industry (BlogService.flushed_industry flushed industry)))
    (fun e =>
       in_db Db.rollback ;;
       logger_error "Error creating industry: {}" [str e] ;;
       raise (HTTPException HTTP_500_INTERNAL_SERVER_ERROR (str e))).

(** The criteria of the second query: [Industry.category ==
    industry.category] (an IS NULL test when the category is [None]) and
    [Industry.name != industry_name]. *)
Definition related_to (industry : Industry.t) (industry_name : string)
           (j : Industry.t) : bool :=
  bool_decide (Industry.category j = Industry.category industry)
  && negb (String.eqb (Industry.name j) industry_name).

Definition get_related_industries (industry_name : string) (limit : nat)
  : M World (list Industry.t) :=
  try_except
    (industry <- in_db (Db.first_industry_named industry_name) ;;
     match industry with
     | None => raise (HTTPException 404 "Industry not found")
     | Some industry =>
         in_db Db.round_trip ;;
         w <- get ;;
         ret (firstn limit
                (List.filter (related_to industry industry_name)
                             (Db.industries (Db.store (db w)))))
     end)
    (fun e =>
       logger_error "Error getting related industries: {}" [str e] ;;
       raise (HTTPException HTTP_500_INTERNAL_SERVER_ERROR
                            "Error finding related industries")).

End IndustryOps.

(** *** The listings of [app/services/blog.py] *)

Module BlogListing.

(** The rows of [blogpost JOIN industry] whose industry has the name, as a
    list of posts: a post comes once for each industry it joins with (once
    at most when the ids are keys). *)
Definition posts_of_industry (industry_name : string) (st : Db.Store) : list BlogPost.t :=
  flat_map (fun p =>
              map (fun _ => p)
                  (List.filter
                     (fun i => Db.same_id (BlogPost.industry_id p) (Industry.id i)
                               && String.eqb (Industry.name i) industry_name)
                     (Db.industries st)))
           (Db.posts st).

Definition posts_of_location (location_name : string) (st : Db.Store) : list BlogPost.t :=
  flat_map (fun p =>
              map (fun _ => p)
                  (List.filter
                     (fun l => Db.same_id (BlogPost.location_id p) (Location.id l)
                               && String.eqb (Location.name l) location_name)
                     (Db.locations st)))
           (Db.posts st).

(** No [try] here: what the datastore raises goes up as it is. *)
Definition get_posts_by_industry (industry_name : string) (skip limit : nat)
  : M World (list BlogPost.t) :=
  in_db Db.round_trip ;;
  w <- get ;;
  ret (firstn limit (skipn skip (posts_of_industry industry_name (Db.store (db w))))).

Definition get_posts_by_location (location_name : string) (skip limit : nat)
  : M World (list BlogPost.t) :=
  in_db Db.round_trip ;;
  w <- get ;;
  ret (firstn limit (skipn skip (posts_of_location location_name (Db.store (db w))))).

End BlogListing.

(** *** Session scopes ([app/core/database.py]) *)

Module Database.

(** [SessionLocal()]: a new session on the same datastore, with nothing
    pending.  The objects pending in the session the world already has
    belong to that other session: they are set aside and come back when the
    new session is closed. *)
Definition open_session (w : World) : World :=
  {| db := Db.with_pending [] (db w); ai := ai w; log := log w |}.

(** [db.close()] of the new session, back to the session there was. *)
Definition close_session (outer : list Row) (w : World) : World :=
  {| db := Db.with_pending outer (db w); ai := ai w; log := log w |}.

(** [with get_db() as db: body]: commit when the body ends, roll back and
    raise again when the body or the commit raises, close in any case. *)
Definition get_db {A} (body : M World A) : M World A :=
  fun w =>
    let outer := Db.pending (db w) in
    let (r, w') :=
      try_except
        (a <- body ;; in_db Db.commit ;; ret a)
        (fun e =>
           in_db Db.rollback ;;
           logger_error "Database error: {}" [str e] ;;
           raise e)
        (open_session w) in
    (r, close_session outer w').

(** The dependency [get_db_session]: the session is handed to the endpoint
    and closed behind it; nothing is committed or rolled back here. *)
Definition get_db_session {A} (endpoint : M World A) : M World A :=
  fun w =>
    let outer := Db.pending (db w) in
    let (r, w') := endpoint (open_session w) in
    (r, close_session outer w').

(** [db.add(obj)] for each object of a list, in order. *)
Fixpoint add_all (rows : list Row) : M World unit :=
  match rows with
  | [] => ret tt
  | r :: rest => in_db (Db.add r) ;; add_all rest
  end.

End Database.

(** *** The validator of [app/schemas/blog.py] *)

Module Schemas.

(** [s.lstrip()] on the list of characters. *)
Fixpoint lstrip (s : list ascii) : list ascii :=
  match s with
  | [] => []
  | c :: s' => if PyStr.isspace c then lstrip s' else s
  end.

(** [v.strip()] *)
Definition strip (v : string) : string :=
  string_of_list_ascii (rev (lstrip (rev (lstrip (list_ascii_of_string v))))).

(** [validate_not_empty]: the stripped value, [ValueError] when nothing is
    left. *)
Definition validate_not_empty (v : string) : Res string :=
  let v := strip v in
  if String.eqb v EmptyString then Raise (Exception "Field cannot be empty")
  else Return v.

End Schemas.

(** *** [Location.full_name] ([app/models/common.py]) *)

Module LocationModel.

Definition full_name (l : Location.t) : string :=
  let parts := [Location.name l] in
  let parts := if LocationService.truthy (Location.state l)
               then parts ++ [default EmptyString (Location.state l)]
               else parts in
  let parts := parts ++ [Location.country l] in
  PyStr.join ", " parts.

End LocationModel.

(** The log records of the retry loop. *)
Definition attempt_warning (attempt : nat) (e : exn) : LogRecord :=
  {| levelno := WARNING; msg := "Attempt {} failed: {}";
     args := [string_of_Z (Z.of_nat attempt); str e] |}.

Definition exhausted_error (e : exn) : LogRecord :=
  {| levelno := ERROR; msg := "Failed to generate blog content after {} attempts: {}";
     args := [string_of_Z 3; str e] |}.

(** Referential integrity: every post refers to a committed industry and to
    a committed location. *)
Definition references_valid (st : Db.Store) : Prop :=
  forall p, In p (Db.posts st) ->
    (exists i, In i (Db.industries st) /\
               Db.same_id (BlogPost.industry_id p) (Industry.id i) = true) /\
    (exists l, In l (Db.locations st) /\
               Db.same_id (BlogPost.location_id p) (Location.id l) = true).

(** A third industry, left without a category like the bakery, and the store
    of the examples with it. *)
Definition florist : Industry.t :=
  {| Industry.id := Some 3%Z; Industry.created_at := Some 30%Z;
     Industry.updated_at := Some 30%Z; Industry.name := "Florist";
     Industry.description := None; Industry.category := None |}.

Definition three_industries : Db.Store :=
  {| Db.industries := [bakery; dentist; florist]; Db.locations := [austin_row];
     Db.posts := [post_with 1 100; post_with 2 200; post_with 3 300] |}.

(** The criteria a filters dict stands for, when the query can be built. *)
Definition criteria_of {R : Type} `{BaseService.Model R}
           (filters : option (list (string * BaseService.value)))
  : Res (list (R -> bool)) :=
  match filters with
  | None => Return []
  | Some items => BaseService.apply_filters items []
  end.
(** The number of committed rows, all tables together. *)
Definition row_count (st : Db.Store) : nat :=
  (length (Db.industries st) + length (Db.locations st) + length (Db.posts st))%nat.

(** The record [get_db] logs before it raises again. *)
Definition database_error_record (e : exn) : LogRecord :=
  {| levelno := ERROR; msg := "Database error: {}"; args := [str e] |}.


(** * Properties *)

(** ** Strings *)

Lemma startswith_spec (k s : string) :
  PyStr.startswith k s = true <-> exists post, s = String.append k post.
Proof.
  revert s. induction k as [|a k IH]; intros s; simpl.
  - split; [intros _; exists s; reflexivity | reflexivity].
  - destruct s as [|b s].
    + split; [discriminate | intros [post Hp]; discriminate].
    + destruct (Ascii.eqb_spec a b) as [->|Hne].
      * rewrite IH. split; intros [post Hp]; exists post; [now rewrite Hp | now injection Hp].
      * split; [discriminate | intros [post Hp]; injection Hp; intros _ Hab; now symmetry in Hab].
Qed.

Lemma contains_spec (k s : string) :
  PyStr.contains k s = true <-> PyStr.occurs_in k s.
Proof.
  unfold PyStr.occurs_in. induction s as [|b s IH].
  - simpl. rewrite orb_false_r, startswith_spec. split.
    + intros [post Hp]. exists EmptyString, post. exact Hp.
    + intros ([|c pre] & post & Hp); [exists post; exact Hp | discriminate].
  - cbn [PyStr.contains]. rewrite orb_true_iff, IH, startswith_spec. split.
    + intros [[post Hp] | (pre & post & Hp)].
      * exists EmptyString, post. exact Hp.
      * exists (String b pre), post. simpl. now rewrite Hp.
    + intros ([|c pre] & post & Hp).
      * left. exists post. exact Hp.
      * right. simpl in Hp. injection Hp as _ Hp. exists pre, post. exact Hp.
Qed.

(** [lower] leaves no capital letter of the ASCII range and touches nothing
    else. *)
Lemma lower_ascii_spec (c : ascii) :
  let n := nat_of_ascii c in
  nat_of_ascii (PyStr.lower_ascii c) = if (65 <=? n)%nat && (n <=? 90)%nat then (n + 32)%nat else n.
Proof.
  cbv zeta. unfold PyStr.lower_ascii.
  destruct ((65 <=? nat_of_ascii c)%nat && (nat_of_ascii c <=? 90)%nat) eqn:E; [|reflexivity].
  apply andb_true_iff in E as [_ E2]. apply Nat.leb_le in E2.
  apply nat_ascii_embedding. lia.
Qed.

Lemma lower_length (s : string) : String.length (PyStr.lower s) = String.length s.
Proof. induction s; simpl; congruence. Qed.

(** ** Industry categorization *)

Section Categorize.
Import IndustryService.

Lemma any_keyword_spec (keywords : list string) (name_lower : string) :
  any_keyword keywords name_lower = true <-> keyword_match keywords name_lower.
Proof.
  unfold any_keyword, keyword_match. rewrite existsb_exists.
  split; intros (k & Hin & Hk); exists k; (split; [exact Hin|]); now apply contains_spec.
Qed.

(** The loop returns the first item that matches, whatever the mapping. *)
Lemma categorize_loop_first (before after : list (string * list string))
      (category : string) (keywords : list string) (name_lower : string) :
  keyword_match keywords name_lower ->
  (forall c k, In (c, k) before -> ~ keyword_match k name_lower) ->
  categorize_loop (before ++ (category, keywords) :: after) name_lower = category.
Proof.
  intros Hm. induction before as [|[c k] before IH]; intros Hnone; simpl.
  - apply any_keyword_spec in Hm. now rewrite Hm.
  - destruct (any_keyword k name_lower) eqn:E.
    + exfalso. apply (Hnone c k); [now left | now apply any_keyword_spec].
    + apply IH. intros c' k' Hin. apply (Hnone c' k'). now right.
Qed.

Lemma categorize_loop_none (items : list (string * list string)) (name_lower : string) :
  (forall c k, In (c, k) items -> ~ keyword_match k name_lower) ->
  categorize_loop items name_lower = "other".
Proof.
  induction items as [|[c k] items IH]; intros Hnone; simpl; [reflexivity|].
  destruct (any_keyword k name_lower) eqn:E.
  - exfalso. apply (Hnone c k); [now left | now apply any_keyword_spec].
  - apply IH. intros c' k' Hin. apply (Hnone c' k'). now right.
Qed.

(** C7. For every name, the categorization lower-cases it and answers the
    first category, in the order technology, healthcare, retail, services,
    hospitality of the mapping, one of whose keywords occurs somewhere in
    the lower-cased name; it answers "other" when no keyword of any
    category occurs in it. *)
Theorem categorize_first_match (name : string) :
  let name_lower := PyStr.lower name in
  map fst categories = ["technology"; "healthcare"; "retail"; "services"; "hospitality"] /\
  (forall before category keywords after,
      categories = before ++ (category, keywords) :: after ->
      keyword_match keywords name_lower ->
      (forall c k, In (c, k) before -> ~ keyword_match k name_lower) ->
      _categorize_industry name = category) /\
  ((forall c k, In (c, k) categories -> ~ keyword_match k name_lower) ->
   _categorize_industry name = "other").
Proof.
  cbv zeta. split; [reflexivity|]. split.
  - intros before category keywords after Hsplit Hm Hnone.
    unfold _categorize_industry. rewrite Hsplit.
    now apply categorize_loop_first.
  - intros Hnone. unfold _categorize_industry. now apply categorize_loop_none.
Qed.

(** The theorem at work on "Dental Clinic": technology has no keyword in
    it, healthcare has "dental". *)
Lemma categorize_first_match_witness :
  _categorize_industry "Dental Clinic" = "healthcare".
Proof.
  destruct (categorize_first_match "Dental Clinic") as (_ & Hfirst & _).
  apply (Hfirst [("technology",
                  ["software"; "it"; "cybersecurity"; "web development";
                   "mobile apps"; "cloud computing"; "artificial intelligence"])]
                "healthcare"
                ["medical"; "dental"; "pharmacy"; "wellness"; "fitness";
                 "mental health"; "healthcare technology"]
                (tl (tl categories))).
  - reflexivity.
  - apply any_keyword_spec. vm_compute. reflexivity.
  - intros c k [Heq|[]]. injection Heq as _ <-.
    intros Hm. apply any_keyword_spec in Hm. vm_compute in Hm. discriminate.
Defined.

(** C2, as the code has it. "Web Development Studio" is categorized as
    "technology"; "Family Dentistry" as "other", since no keyword of any
    category, "dental" included, occurs in "family dentistry"; "Lemonade
    Stand" as "other". *)
Theorem categorize_examples :
  _categorize_industry "Web Development Studio" = "technology" /\
  _categorize_industry "Family Dentistry" = "other" /\
  _categorize_industry "Lemonade Stand" = "other".
Proof. repeat split; vm_compute; reflexivity. Qed.

(** No keyword of any category occurs in "family dentistry". *)
Lemma family_dentistry_no_keyword (c : string) (k : list string) :
  In (c, k) categories -> ~ keyword_match k (PyStr.lower "Family Dentistry").
Proof.
  intros Hin Hm. apply any_keyword_spec in Hm.
  simpl in Hin.
  repeat (destruct Hin as [Heq|Hin];
          [injection Heq as _ <-; vm_compute in Hm; discriminate|]).
  destruct Hin.
Qed.

(** C2 as the specification words it does not hold: "Family Dentistry" is
    not categorized as "healthcare". *)
Lemma categorize_examples_counterexample :
  ~ (_categorize_industry "Web Development Studio" = "technology" /\
     _categorize_industry "Family Dentistry" = "healthcare" /\
     _categorize_industry "Lemonade Stand" = "other").
Proof. intros (_ & H & _). vm_compute in H. discriminate. Qed.

End Categorize.

(** ** The completion client *)

Section Retry.
Import Ai.

Variables (mr : nat) (d : Z) (prompt : string) (max_tokens : option Z).

Lemma attempt_body_eq (w : World) :
  attempt_body prompt max_tokens w = (attempt_result w prompt max_tokens 0, issue w).
Proof.
  unfold attempt_body, attempt_result, _make_completion_request, bind, build_result.
  rewrite Nat.add_0_r.
  destruct (provider w (requests w) _) as [response|e]; [|reflexivity].
  destruct (choices response); reflexivity.
Qed.

(** A failed attempt that is not the last one logs, sleeps and leaves the
    later attempts as they were. *)
Lemma attempt_result_shift (w : World) (r : LogRecord) (secs : Z) (k : nat) :
  attempt_result (sleep_world secs (log_world r (issue w))) prompt max_tokens k
  = attempt_result w prompt max_tokens (S k).
Proof. unfold attempt_result. simpl. now rewrite Nat.add_succ_r. Qed.

(** One iteration of the loop, by the outcome of its attempt. *)
Lemma retry_loop_returns (a : nat) (rest : list nat) (w : World) (g : Generated) :
  attempt_result w prompt max_tokens 0 = Return g ->
  retry_loop mr d prompt max_tokens (a :: rest) w = (Return (Some g), issue w).
Proof.
  intros Hok. cbn [retry_loop]. unfold try_except, bind.
  now rewrite attempt_body_eq, Hok.
Qed.

Lemma retry_loop_retries (a : nat) (rest : list nat) (w : World) (e : exn) :
  attempt_result w prompt max_tokens 0 = Raise e ->
  a <> (mr - 1)%nat ->
  retry_loop mr d prompt max_tokens (a :: rest) w
  = retry_loop mr d prompt max_tokens rest
      (sleep_world (d * Z.of_nat (a + 1))
         (log_world {| levelno := WARNING; msg := "Attempt {} failed: {}";
                       args := [string_of_Z (Z.of_nat (a + 1)); str e] |} (issue w))).
Proof.
  intros He Hne. cbn [retry_loop]. unfold try_except at 1, bind at 1.
  rewrite attempt_body_eq, He.
  destruct (Nat.eqb_spec a (mr - 1)) as [Heq|_]; [contradiction|].
  reflexivity.
Qed.

Lemma retry_loop_raises (a : nat) (rest : list nat) (w : World) (e : exn) :
  attempt_result w prompt max_tokens 0 = Raise e ->
  a = (mr - 1)%nat ->
  retry_loop mr d prompt max_tokens (a :: rest) w
  = (Raise e,
     log_world {| levelno := ERROR;
                  msg := "Failed to generate blog content after {} attempts: {}";
                  args := [string_of_Z (Z.of_nat mr); str e] |} (issue w)).
Proof.
  intros He Heq. cbn [retry_loop]. unfold try_except at 1, bind at 1.
  rewrite attempt_body_eq, He.
  destruct (Nat.eqb_spec a (mr - 1)) as [_|Hne]; [|contradiction].
  reflexivity.
Qed.

(** The loop on attempts [a], ..., [a+n-1], none of them the last one before
    [a+k]: when the first [k] fail and the next succeeds, its result is
    returned at once. *)
Lemma retry_loop_success (k : nat) : forall (a n : nat) (w : World) (g : Generated),
  (k < n)%nat -> (a + n <= mr)%nat ->
  (forall i, (i < k)%nat -> exists e, attempt_result w prompt max_tokens i = Raise e) ->
  attempt_result w prompt max_tokens k = Return g ->
  let r := retry_loop mr d prompt max_tokens (seq a n) w in
  fst r = Return (Some g) /\
  requests (snd r) = (requests w + k + 1)%nat /\
  slept (snd r) = slept w ++ backoff d a k /\
  provider (snd r) = provider w.
Proof.
  induction k as [|k IH]; intros a n w g Hk Hn Hfail Hok r; subst r;
    (destruct n as [|n]; [lia|]); cbn [seq].
  - rewrite (retry_loop_returns _ _ _ _ Hok). simpl.
    repeat split; [lia | now rewrite app_nil_r].
  - destruct (Hfail 0%nat ltac:(lia)) as [e He].
    rewrite (retry_loop_retries _ _ _ _ He) by lia.
    edestruct (IH (S a) n) as (Hr & Hreq & Hsl & Hpr);
      [| | | rewrite attempt_result_shift; exact Hok |]; [lia | lia | |].
    + intros i Hi. rewrite attempt_result_shift. apply Hfail. lia.
    + rewrite Hr, Hreq, Hsl, Hpr. simpl. repeat split; [lia|].
      unfold backoff. simpl. now rewrite <- app_assoc.
Qed.

(** When every attempt up to the last one fails, the last exception is
    raised again, after a pause behind each attempt but the last. *)
Lemma retry_loop_exhausted (n : nat) : forall (a : nat) (w : World) (e : exn),
  (a + S n = mr)%nat ->
  (forall i, (i < n)%nat -> exists e', attempt_result w prompt max_tokens i = Raise e') ->
  attempt_result w prompt max_tokens n = Raise e ->
  let r := retry_loop mr d prompt max_tokens (seq a (S n)) w in
  fst r = Raise e /\
  requests (snd r) = (requests w + S n)%nat /\
  slept (snd r) = slept w ++ backoff d a n /\
  provider (snd r) = provider w.
Proof.
  induction n as [|n IH]; intros a w e Hmr Hfail Hlast r; subst r; cbn [seq].
  - rewrite (retry_loop_raises _ _ _ _ Hlast) by lia. simpl.
    repeat split; [lia | now rewrite app_nil_r].
  - destruct (Hfail 0%nat ltac:(lia)) as [e0 He0].
    rewrite (retry_loop_retries _ _ _ _ He0) by lia.
    edestruct (IH (S a)) as (Hr & Hreq & Hsl & Hpr);
      [| | rewrite attempt_result_shift; exact Hlast |]; [lia | |].
    + intros i Hi. rewrite attempt_result_shift. apply Hfail. lia.
    + cbn [seq] in Hr, Hreq, Hsl, Hpr.
      rewrite Hr, Hreq, Hsl, Hpr. simpl. repeat split; [lia|].
      unfold backoff. simpl. now rewrite <- app_assoc.
Qed.

End Retry.

(** C1. Every call of [generate_blog_content] issues at most 3 requests.  An
    attempt that succeeds ends the call with its content, token count and
    finish reason, and nothing is attempted after it.  After the failed
    attempt number 1 the client sleeps 1 second, after the failed attempt
    number 2 it sleeps 2 seconds (3 seconds in all), and when the third
    attempt fails too its exception goes up to the caller. *)
Theorem generate_blog_content_retry
        (industry location topic : string) (style : option string)
        (max_tokens : option Z) (w : Ai.World) :
  let prompt := Ai._create_blog_prompt industry location topic (Ai.fmt style) in
  let attempt := attempt_result w prompt max_tokens in
  let r := Ai.generate_blog_content industry location topic style max_tokens w in
  let slept_in_call (pauses : list Z) := Ai.slept (snd r) = Ai.slept w ++ pauses in
  let attempts_made (n : nat) := Ai.requests (snd r) = (Ai.requests w + n)%nat in
  (Ai.requests (snd r) <= Ai.requests w + 3)%nat /\
  (forall g, attempt 0%nat = Return g ->
     fst r = Return (Some g) /\ attempts_made 1%nat /\ slept_in_call []) /\
  (forall e1 g, attempt 0%nat = Raise e1 -> attempt 1%nat = Return g ->
     fst r = Return (Some g) /\ attempts_made 2%nat /\ slept_in_call [1%Z]) /\
  (forall e1 e2 g,
     attempt 0%nat = Raise e1 -> attempt 1%nat = Raise e2 -> attempt 2%nat = Return g ->
     fst r = Return (Some g) /\ attempts_made 3%nat /\ slept_in_call [1%Z; 2%Z]) /\
  (forall e1 e2 e3,
     attempt 0%nat = Raise e1 -> attempt 1%nat = Raise e2 -> attempt 2%nat = Raise e3 ->
     fst r = Raise e3 /\ attempts_made 3%nat /\ slept_in_call [1%Z; 2%Z] /\
     total_sleep [1%Z; 2%Z] = 3%Z).
Proof.
  intros prompt attempt r slept_in_call attempts_made.
  subst slept_in_call attempts_made attempt r.
  unfold Ai.generate_blog_content. fold prompt.
  set (run := Ai.retry_loop Ai.max_retries Ai.retry_delay prompt max_tokens
                            (seq 0 Ai.max_retries) w).
  assert (H0 : forall g, attempt_result w prompt max_tokens 0 = Return g ->
                fst run = Return (Some g) /\
                Ai.requests (snd run) = (Ai.requests w + 1)%nat /\
                Ai.slept (snd run) = Ai.slept w ++ []).
  { intros g Hg.
    destruct (retry_loop_success Ai.max_retries Ai.retry_delay prompt max_tokens
                0 0 Ai.max_retries w g) as (Hr & Hq & Hs & _);
      [unfold Ai.max_retries; lia | unfold Ai.max_retries; lia
       | intros i Hi; lia | exact Hg |].
    repeat split; [exact Hr | unfold run; rewrite Hq; lia | exact Hs]. }
  assert (H1 : forall e1 g, attempt_result w prompt max_tokens 0 = Raise e1 ->
                attempt_result w prompt max_tokens 1 = Return g ->
                fst run = Return (Some g) /\
                Ai.requests (snd run) = (Ai.requests w + 2)%nat /\
                Ai.slept (snd run) = Ai.slept w ++ [1%Z]).
  { intros e1 g He1 Hg.
    destruct (retry_loop_success Ai.max_retries Ai.retry_delay prompt max_tokens
                1 0 Ai.max_retries w g) as (Hr & Hq & Hs & _);
      [unfold Ai.max_retries; lia | unfold Ai.max_retries; lia | | exact Hg |].
    - intros i Hi. assert (i = 0%nat) as -> by lia. eauto.
    - repeat split; [exact Hr | unfold run; rewrite Hq; lia | exact Hs]. }
  assert (H2 : forall e1 e2 g, attempt_result w prompt max_tokens 0 = Raise e1 ->
                attempt_result w prompt max_tokens 1 = Raise e2 ->
                attempt_result w prompt max_tokens 2 = Return g ->
                fst run = Return (Some g) /\
                Ai.requests (snd run) = (Ai.requests w + 3)%nat /\
                Ai.slept (snd run) = Ai.slept w ++ [1%Z; 2%Z]).
  { intros e1 e2 g He1 He2 Hg.
    destruct (retry_loop_success Ai.max_retries Ai.retry_delay prompt max_tokens
                2 0 Ai.max_retries w g) as (Hr & Hq & Hs & _);
      [unfold Ai.max_retries; lia | unfold Ai.max_retries; lia | | exact Hg |].
    - intros i Hi. assert (i = 0 \/ i = 1)%nat as [-> | ->] by lia; eauto.
    - repeat split; [exact Hr | unfold run; rewrite Hq; lia | exact Hs]. }
  assert (H3 : forall e1 e2 e3, attempt_result w prompt max_tokens 0 = Raise e1 ->
                attempt_result w prompt max_tokens 1 = Raise e2 ->
                attempt_result w prompt max_tokens 2 = Raise e3 ->
                fst run = Raise e3 /\
                Ai.requests (snd run) = (Ai.requests w + 3)%nat /\
                Ai.slept (snd run) = Ai.slept w ++ [1%Z; 2%Z]).
  { intros e1 e2 e3 He1 He2 He3.
    destruct (retry_loop_exhausted Ai.max_retries Ai.retry_delay prompt max_tokens
                2 0 w e3) as (Hr & Hq & Hs & _);
      [reflexivity | | exact He3 |].
    - intros i Hi. assert (i = 0 \/ i = 1)%nat as [-> | ->] by lia; eauto.
    - repeat split; [exact Hr | exact Hq | exact Hs]. }
  split; [|split; [exact H0 | split; [exact H1 | split; [exact H2 |]]]].
  - destruct (attempt_result w prompt max_tokens 0) as [g0|e1] eqn:E0.
    { destruct (H0 g0 eq_refl) as (_ & Hq & _). lia. }
    destruct (attempt_result w prompt max_tokens 1) as [g1|e2] eqn:E1.
    { destruct (H1 e1 g1 eq_refl eq_refl) as (_ & Hq & _). lia. }
    destruct (attempt_result w prompt max_tokens 2) as [g2|e3] eqn:E2.
    { destruct (H2 e1 e2 g2 eq_refl eq_refl eq_refl) as (_ & Hq & _). lia. }
    destruct (H3 e1 e2 e3 eq_refl eq_refl eq_refl) as (_ & Hq & _). lia.
  - intros e1 e2 e3 He1 He2 He3.
    destruct (H3 e1 e2 e3 He1 He2 He3) as (Hr & Hq & Hs).
    repeat split; assumption.
Qed.

(** The theorem on a provider that fails twice and then answers. *)
Lemma generate_blog_content_retry_witness :
  let r := Ai.generate_blog_content "Bakery" "Austin" "Sourdough trends"
                                    (Some "casual") None flaky_world in
  fst r = Return (Some {| Ai.content := "Sourdough is back."; Ai.tokens_used := 321;
                          Ai.finish_reason_ := "stop" |}) /\
  Ai.requests (snd r) = 3%nat /\
  Ai.slept (snd r) = [1%Z; 2%Z].
Proof.
  destruct (generate_blog_content_retry "Bakery" "Austin" "Sourdough trends"
              (Some "casual") None flaky_world) as (_ & _ & _ & H & _).
  exact (H (Exception "upstream timeout") (Exception "upstream timeout")
           {| Ai.content := "Sourdough is back."; Ai.tokens_used := 321;
              Ai.finish_reason_ := "stop" |} eq_refl eq_refl eq_refl).
Defined.

(** [split] yields one word for each place a word begins. *)
Lemma split_ws_length (s : string) : forall cur : list ascii,
  length (PyStr.split_ws cur s)
  = ((match cur with [] => 0 | _ => 1 end)
     + word_starts (match cur with [] => true | _ => false end) s)%nat.
Proof.
  induction s as [|c s IH]; intros cur; simpl.
  - destruct cur; reflexivity.
  - destruct (PyStr.isspace c) eqn:E.
    + destruct cur; simpl; rewrite IH; simpl; lia.
    + rewrite IH. destruct cur; simpl; lia.
Qed.

Lemma split_length (text : string) : length (PyStr.split text) = word_count text.
Proof. unfold PyStr.split, word_count. now rewrite split_ws_length. Qed.

(** A word [split] yields holds no white space. *)
Lemma split_ws_no_space (s : string) : forall (cur : list ascii) (word : string),
  Forall (fun c => PyStr.isspace c = false) cur ->
  In word (PyStr.split_ws cur s) ->
  Forall (fun c => PyStr.isspace c = false) (list_ascii_of_string word).
Proof.
  induction s as [|c s IH]; intros cur word Hcur Hin; simpl in Hin.
  - destruct cur as [|a cur]; [destruct Hin|].
    destruct Hin as [<-|[]]. rewrite list_ascii_of_string_of_list_ascii.
    apply List.Forall_forall. intros x Hx. apply in_rev in Hx.
    rewrite List.Forall_forall in Hcur. now apply Hcur.
  - destruct (PyStr.isspace c) eqn:E.
    + destruct cur as [|a cur].
      * now apply (IH [] word).
      * destruct Hin as [<-|Hin]; [|now apply (IH [] word)].
        rewrite list_ascii_of_string_of_list_ascii.
        apply List.Forall_forall. intros x Hx. apply in_rev in Hx.
        rewrite List.Forall_forall in Hcur. now apply Hcur.
    + apply (IH (c :: cur) word); [|exact Hin]. now constructor.
Qed.

(** C9. For every text: when the tokenizer of the model succeeds,
    [count_tokens] answers the length of its encoding of the text; when it
    fails, [count_tokens] answers the number of white-space-separated words
    of the text times 1.3, a float that approximates the count. *)
Theorem count_tokens_fallback (tokenizer : string -> Res (list Z)) (text : string)
        (w : Ai.World) :
  (forall ids, tokenizer text = Return ids ->
     fst (Ai.count_tokens tokenizer text w) = Return (Ai.PyInt (Z.of_nat (length ids)))) /\
  (forall e, tokenizer text = Raise e ->
     fst (Ai.count_tokens tokenizer text w)
     = Return (Ai.PyFloat (inject_Z (Z.of_nat (word_count text)) * (13 # 10)))).
Proof.
  unfold Ai.count_tokens, try_except. split.
  - intros ids ->. reflexivity.
  - intros e ->. simpl. now rewrite split_length.
Qed.

(** The theorem on a text of three words when no tokenizer is known:
    3 * 1.3 = 3.9. *)
Lemma count_tokens_fallback_witness :
  fst (Ai.count_tokens no_tokenizer "local  bakery
news" flaky_world) = Return (Ai.PyFloat (inject_Z 3 * (13 # 10))).
Proof.
  destruct (count_tokens_fallback no_tokenizer "local  bakery
news" flaky_world) as (_ & H).
  exact (H _ eq_refl).
Defined.

(** ** Location search *)

Section Search.
Import LocationService.

(** A connectivity error surfaces as "service unavailable". *)
Lemma search_locations_unreachable (query : string) (limit : Z) (w : World) (e : exn) :
  http_get w nominatim_url
           [("q", query); ("format", "json"); ("limit", string_of_Z limit);
            ("addressdetails", "1")] = Raise e ->
  is_ClientError e = true ->
  fst (search_locations query limit w)
  = Raise (HTTPException 503 "Error connecting to geocoding service").
Proof.
  intros Hget Hce. unfold search_locations, try_except, search_body, bind, get.
  rewrite Hget. simpl. now rewrite Hce.
Qed.

(** A body that cannot be processed surfaces as a generic processing
    error. *)
Lemma search_locations_malformed (query : string) (limit : Z) (w : World)
      (response : HttpResponse) (e : exn) :
  http_get w nominatim_url
           [("q", query); ("format", "json"); ("limit", string_of_Z limit);
            ("addressdetails", "1")] = Return response ->
  status response = 200%Z ->
  json response = Raise e ->
  is_ClientError e = false ->
  fst (search_locations query limit w)
  = Raise (HTTPException 500 "Error processing location search").
Proof.
  intros Hget Hst Hjs Hce. unfold search_locations, try_except, search_body, bind, get.
  rewrite Hget, Hst, Hjs. simpl. now rewrite Hce.
Qed.

(** An answer whose status is not 200 raises the 503 inside the [try]; the
    [except Exception] clause catches it and raises a 500 in its place. *)
Lemma search_locations_not_200 (query : string) (limit : Z) (w : World)
      (response : HttpResponse) :
  http_get w nominatim_url
           [("q", query); ("format", "json"); ("limit", string_of_Z limit);
            ("addressdetails", "1")] = Return response ->
  status response <> 200%Z ->
  fst (search_body query limit w)
  = Raise (HTTPException 503 "Geocoding service unavailable") /\
  fst (search_locations query limit w)
  = Raise (HTTPException 500 "Error processing location search").
Proof.
  intros Hget Hst. unfold search_locations, try_except, search_body, bind, get.
  rewrite Hget. apply Z.eqb_neq in Hst. rewrite Hst. simpl. split; reflexivity.
Qed.

(** C6, at a geocoder that answers 404: the caller gets the generic
    processing error (500), not "service unavailable" (503). *)
Theorem search_locations_404 :
  fst (search_locations "Austin" 5 (geocoder_answering 404 (Return [austin])))
  = Raise (HTTPException 500 "Error processing location search").
Proof. reflexivity. Qed.

Lemma search_locations_unreachable_example :
  fst (search_locations "Austin" 5 geocoder_unreachable)
  = Raise (HTTPException 503 "Error connecting to geocoding service").
Proof. reflexivity. Qed.

End Search.

Section FullName.
Import LocationService.



(** [split(",")[0]] is the text up to the first comma. *)
Lemma before_comma_spec (s : string) :
  PyStr.contains "," (PyStr.before_comma s) = false /\
  exists rest, s = String.append (PyStr.before_comma s) rest /\
               (rest = EmptyString \/ exists r, rest = String "," r).
Proof.
  induction s as [|c s (IHc & rest & IHs & IHr)]; simpl.
  - split; [reflexivity|]. exists EmptyString. split; [reflexivity | now left].
  - destruct (Ascii.eqb_spec c ",") as [->|Hne].
    + split; [reflexivity|]. exists (String "," s). split; [reflexivity|]. right. now exists s.
    + split.
      * cbn [PyStr.contains PyStr.startswith].
        destruct (Ascii.eqb_spec "," c) as [<-|_]; [contradiction|]. exact IHc.
      * exists rest. split; [|exact IHr]. rewrite IHs at 1. reflexivity.
Qed.






End FullName.

(** ** Generic listing and counting *)

Section Filters.
Import BaseService.
Context {R : Type} `{Model R}.

(** A key the model does not have adds no criterion to the query. *)
Lemma apply_filters_without (field : string) (items : list (string * value)) :
  attribute field = None ->
  forall criteria, apply_filters (without field items) criteria = apply_filters items criteria.
Proof.
  intros Hnone. induction items as [|[k v] items IH]; intros criteria; [reflexivity|].
  unfold without in *. cbn [List.filter fst].
  destruct (String.eqb_spec k field) as [->|Hne]; cbn [negb].
  - cbn [apply_filters]. rewrite Hnone. apply IH.
  - cbn [apply_filters]. destruct (attribute k) as [[read| |same]|]; try apply IH. reflexivity.
Qed.

Lemma apply_filters_unknown (items : list (string * value)) :
  (forall kv, In kv items -> attribute (fst kv) = None) ->
  forall criteria, apply_filters items criteria = Return criteria.
Proof.
  induction items as [|[k v] items IH]; intros Hall criteria; [reflexivity|].
  cbn [apply_filters]. rewrite (Hall (k, v) (or_introl eq_refl) : attribute k = None).
  apply IH. intros kv Hin. apply Hall. now right.
Qed.

Lemma build_query_eq (items : list (string * value)) :
  build_query (Some items)
  = match apply_filters items [] with
    | Return criteria => ret criteria
    | Raise e => raise e
    end.
Proof. destruct items; reflexivity. Qed.

Lemma build_query_without (field : string) (items : list (string * value)) :
  attribute field = None ->
  build_query (Some (without field items)) = build_query (Some items).
Proof. intros Hnone. now rewrite !build_query_eq, apply_filters_without. Qed.

Lemma build_query_unknown (items : list (string * value)) :
  (forall kv, In kv items -> attribute (fst kv) = None) ->
  build_query (Some items) = build_query None.
Proof. intros Hall. now rewrite build_query_eq, apply_filters_unknown. Qed.

(** C10. For every filters dict given to [get_multi] or [count], a key that
    is not an attribute of the model is ignored: the call behaves as the same
    call without that key, and a call all of whose keys are unknown behaves
    as the call without filters. *)
Theorem unknown_filter_ignored (items : list (string * value))
        (skip limit : nat) (w : World) :
  (forall field, attribute field = None ->
     get_multi skip limit (Some items) w
     = get_multi skip limit (Some (without field items)) w /\
     count (Some items) w = count (Some (without field items)) w) /\
  ((forall kv, In kv items -> attribute (fst kv) = None) ->
     get_multi skip limit (Some items) w = get_multi skip limit None w /\
     count (Some items) w = count None w).
Proof.
  split.
  - intros field Hnone. unfold get_multi, count.
    now rewrite (build_query_without field items Hnone).
  - intros Hall. unfold get_multi, count.
    now rewrite (build_query_unknown items Hall).
Qed.

End Filters.

(** The theorem on industries filtered by name and by a colour they do not
    have. *)
Lemma unknown_filter_ignored_witness :
  BaseService.get_multi (R := Industry.t) 0 100
    (Some [("colour", BaseService.VStr "red"); ("name", BaseService.VStr "Bakery")])
    (world_on demo_store never)
  = BaseService.get_multi (R := Industry.t) 0 100
      (Some [("name", BaseService.VStr "Bakery")])
      (world_on demo_store never).
Proof.
  destruct (unknown_filter_ignored (R := Industry.t)
              [("colour", BaseService.VStr "red"); ("name", BaseService.VStr "Bakery")]
              0 100 (world_on demo_store never)) as (Hone & _).
  exact (proj1 (Hone "colour" eq_refl)).
Defined.

Example get_multi_by_name :
  fst (BaseService.get_multi (R := Industry.t) 0 100
         (Some [("colour", BaseService.VStr "red"); ("name", BaseService.VStr "Bakery")])
         (world_on demo_store never))
  = Return [bakery].
Proof. vm_compute. reflexivity. Qed.

(** ** Statistics *)

Section Average.
Import BlogService.
Local Open Scope Q_scope.

Lemma round_half_even_comp (x y : Q) : x == y -> round_half_even x = round_half_even y.
Proof.
  intros Hxy. unfold round_half_even.
  rewrite (Qfloor_comp _ _ Hxy).
  assert (Hc : (x - inject_Z (Qfloor y) ?= 1 # 2) = (y - inject_Z (Qfloor y) ?= 1 # 2)).
  { apply Qcompare_comp; [now rewrite Hxy | reflexivity]. }
  now rewrite Hc.
Qed.

Lemma round2_comp (x y : Q) : x == y -> round2 x = round2 y.
Proof.
  intros Hxy. unfold round2.
  rewrite (round_half_even_comp (x * 100) (y * 100)); [reflexivity | now rewrite Hxy].
Qed.

(** Rounding moves a number by half a unit at most. *)
Lemma round_half_even_near (q : Q) : Qabs (q - inject_Z (round_half_even q)) <= 1 # 2.
Proof.
  unfold round_half_even.
  pose proof (Qfloor_le q) as Hlo. pose proof (Qlt_floor q) as Hhi.
  rewrite inject_Z_plus in Hhi. change (inject_Z 1) with 1 in Hhi.
  apply Qabs_Qle_condition.
  destruct (q - inject_Z (Qfloor q) ?= 1 # 2) eqn:E.
  - apply Qeq_alt in E.
    destruct (Z.even (Qfloor q)); [|rewrite inject_Z_plus; change (inject_Z 1) with 1];
      split; lra.
  - apply Qlt_alt in E. split; lra.
  - apply Qgt_alt in E. rewrite inject_Z_plus. change (inject_Z 1) with 1. split; lra.
Qed.

(** [round(x, 2)] is a whole number of hundredths, within half a hundredth
    of [x]. *)
Lemma round2_spec (x : Q) :
  round2 x * 100 == inject_Z (round_half_even (x * 100)) /\
  Qabs (x - round2 x) <= 1 # 200.
Proof.
  unfold round2. split; [field|].
  pose proof (round_half_even_near (x * 100)) as Hn.
  apply Qabs_Qle_condition in Hn. apply Qabs_Qle_condition.
  set (n := inject_Z (round_half_even (x * 100))) in *.
  destruct Hn as [Hn1 Hn2]. split.
  - apply Qmult_le_r with (z := 100); [reflexivity|].
    assert (E : (x - n / 100) * 100 == x * 100 - n) by field. rewrite E. lra.
  - apply Qmult_le_r with (z := 100); [reflexivity|].
    assert (E : (x - n / 100) * 100 == x * 100 - n) by field. rewrite E. lra.
Qed.

(** The average of the datastore is the mean when every post has a count. *)
Lemma sql_avg_mean (tokens : list Z) :
  tokens <> [] -> sql_avg (map Some tokens) = Some (mean tokens).
Proof.
  intros Hne. unfold sql_avg.
  assert (Hid : omap id (map Some tokens) = tokens).
  { clear Hne. induction tokens as [|t tokens IH]; [reflexivity|].
    cbn. now f_equal. }
  rewrite Hid. destruct tokens; [contradiction | reflexivity].
Qed.

Lemma or_zero_eq (q : Q) : or_zero (Some q) == q.
Proof.
  unfold or_zero. destruct (Qeq_bool q 0) eqn:E; [|reflexivity].
  apply Qeq_bool_eq in E. now rewrite E.
Qed.

End Average.

Section Stats.
Import BlogService.
Local Open Scope Q_scope.

Lemma filter_all {A} (l : list A) : List.filter (fun _ => true) l = l.
Proof. induction l as [|a l IH]; simpl; congruence. Qed.

Lemma round_trip_ok (w : World) :
  Db.faults (db w) (Db.ops (db w)) = None ->
  in_db Db.round_trip w = (Return tt, after_round_trip w).
Proof.
  intros Hf. unfold in_db, zoom, Db.round_trip. now rewrite Hf.
Qed.

Lemma no_faults_after (w : World) : no_faults w -> no_faults (after_round_trip w).
Proof. intros Hf n. exact (Hf n). Qed.

(** With a datastore that answers, the statistics are returned, and the
    average is the rounded [avg ... or 0] of the committed posts. *)
Lemma get_blog_stats_returns (w : World) :
  no_faults w ->
  exists stats w',
    get_blog_stats w = (Return stats, w') /\
    average_tokens stats
    = round2 (or_zero (sql_avg (map BlogPost.tokens_used (Db.posts (Db.store (db w)))))) /\
    total_posts stats = length (Db.posts (Db.store (db w))).
Proof.
  intros Hf.
  pose proof (no_faults_after _ Hf) as Hf1.
  pose proof (no_faults_after _ Hf1) as Hf2.
  pose proof (no_faults_after _ Hf2) as Hf3.
  pose proof (no_faults_after _ Hf3) as Hf4.
  unfold get_blog_stats, try_except, stats_body, BaseService.count, try_except.
  unfold bind at 1. unfold bind at 1. cbn [BaseService.build_query ret].
  unfold bind at 1. rewrite (round_trip_ok w (Hf _)).
  unfold bind at 1. cbn [get ret].
  unfold bind at 1. rewrite (round_trip_ok _ (Hf1 _)).
  unfold bind at 1. cbn [get].
  unfold bind at 1. rewrite (round_trip_ok _ (Hf2 _)).
  unfold bind at 1. cbn [get].
  unfold bind at 1. rewrite (round_trip_ok _ (Hf3 _)).
  unfold bind at 1. cbn [get].
  unfold bind at 1. rewrite (round_trip_ok _ (Hf4 _)).
  unfold bind at 1. cbn [get ret].
  eexists _, _. split; [reflexivity|]. split; [reflexivity|].
  cbn [total_posts]. unfold BaseService.select. cbn [forallb].
  now rewrite filter_all.
Qed.

End Stats.

(** ** The session *)

Ltac db_simpl :=
  cbn beta iota delta
      [fst snd db ai log Db.store Db.pending Db.faults Db.ops Db.clock Db.ticks
       Db.with_store Db.with_pending Db.with_ops Db.with_ticks
       Db.industries Db.locations Db.posts app Db.flush].

Ltac run_db :=
  unfold in_db, in_ai, zoom, Db.first_industry_named, Db.first_location_named,
    Db.add, Db.commit, Db.rollback, Db.refresh_industry, Db.refresh_location,
    Db.refresh_post, Db.round_trip, bind, get, ret, modify, raise;
  db_simpl.

(** Case analysis on the innermost scrutinee of the goal. *)
Ltac split_case :=
  match goal with
  | |- context [match ?x with _ => _ end] =>
      lazymatch x with
      | context [match _ with _ => _ end] => fail
      | _ => destruct x eqn:?
      end
  end.

Ltac split_cases H := repeat (try rewrite H; db_simpl; split_case; db_simpl).

Section Insert.

(** What an INSERT does to the three tables. *)
Lemma insert_industry (t1 t2 : Z) (i : Industry.t) (st st' : Db.Store) (r : Row) :
  Db.insert_row t1 t2 (RowIndustry i) st = Return (r, st') ->
  exists i', r = RowIndustry i' /\
    st' = {| Db.industries := Db.industries st ++ [i'];
             Db.locations := Db.locations st; Db.posts := Db.posts st |} /\
    Industry.id i' = Some (Db.next_id (map Industry.id (Db.industries st))) /\
    Industry.name i' = Industry.name i /\
    Industry.description i' = Industry.description i /\
    Industry.category i' = Industry.category i.
Proof.
  unfold Db.insert_row. destruct (existsb _ _); [discriminate|].
  intros [= <- <-]. eexists. repeat split.
Qed.

Lemma insert_location (t1 t2 : Z) (l : Location.t) (st st' : Db.Store) (r : Row) :
  Db.insert_row t1 t2 (RowLocation l) st = Return (r, st') ->
  exists l', r = RowLocation l' /\
    st' = {| Db.industries := Db.industries st;
             Db.locations := Db.locations st ++ [l']; Db.posts := Db.posts st |} /\
    Location.id l' = Some (Db.next_id (map Location.id (Db.locations st))) /\
    Location.name l' = Location.name l /\
    Location.state l' = Location.state l /\
    Location.country l' = Location.country l /\
    Location.timezone l' = Location.timezone l /\
    Location.metadata l' = Location.metadata l.
Proof.
  unfold Db.insert_row. intros [= <- <-]. eexists. repeat split.
Qed.

Lemma insert_post (t1 t2 : Z) (p : BlogPost.t) (st st' : Db.Store) (r : Row) :
  Db.insert_row t1 t2 (RowPost p) st = Return (r, st') ->
  exists p', r = RowPost p' /\
    st' = {| Db.industries := Db.industries st; Db.locations := Db.locations st;
             Db.posts := Db.posts st ++ [p'] |} /\
    BlogPost.id p' = Some (Db.next_id (map BlogPost.id (Db.posts st))).
Proof.
  unfold Db.insert_row.
  destruct (BlogPost.industry_id p); [|discriminate].
  destruct (BlogPost.location_id p); [|discriminate].
  intros [= <- <-]. eexists. repeat split.
Qed.

(** A new key is above every key of the table. *)
Lemma next_id_above (ids : list (option Z)) (k : Z) :
  In (Some k) ids -> (k < Db.next_id ids)%Z.
Proof.
  unfold Db.next_id. induction ids as [|i ids IH]; intros Hin; [destruct Hin|].
  simpl. destruct Hin as [->|Hin]; simpl; [lia|].
  specialize (IH Hin). lia.
Qed.

Lemma find_app_last {A} (p : A -> bool) (l : list A) (x : A) :
  (forall y, In y l -> p y = false) -> p x = true -> find p (l ++ [x]) = Some x.
Proof.
  intros Hl Hx. induction l as [|y l IH]; simpl.
  - now rewrite Hx.
  - rewrite (Hl y) by now left. apply IH. intros z Hz. apply Hl. now right.
Qed.

Lemma find_absent {A} (p : A -> bool) (l : list A) :
  (forall y, In y l -> p y = false) -> find p l = None.
Proof.
  induction l as [|y l IH]; intros Hl; simpl; [reflexivity|].
  rewrite (Hl y) by now left. apply IH. intros z Hz. apply Hl. now right.
Qed.

Lemma existsb_absent {A} (p : A -> bool) (l : list A) :
  (forall y, In y l -> p y = false) -> existsb p l = false.
Proof.
  induction l as [|y l IH]; intros Hl; simpl; [reflexivity|].
  rewrite (Hl y) by now left. apply IH. intros z Hz. apply Hl. now right.
Qed.

End Insert.

Section Upsert.
Import BlogService.



End Upsert.

Section GetOrCreate.
Import BlogService.

Lemma same_id_fresh (ids : list (option Z)) (i : option Z) :
  In i ids -> Db.same_id i (Some (Db.next_id ids)) = false.
Proof.
  intros Hin. destruct i as [k|]; [|reflexivity]. simpl.
  apply Z.eqb_neq. pose proof (next_id_above ids k Hin). lia.
Qed.

(** The first call for a name no industry has: one row is inserted, with the
    name and nothing else of its own, and returned. *)
Lemma industry_created (name : string) (w : World) :
  no_faults w -> Db.pending (db w) = [] ->
  (forall i, In i (Db.industries (Db.store (db w))) -> Industry.name i <> name) ->
  let st := Db.store (db w) in
  let row := {| Industry.id := Some (Db.next_id (map Industry.id (Db.industries st)));
                Industry.created_at := Some (Db.clock (db w) (Db.ticks (db w)));
                Industry.updated_at := Some (Db.clock (db w) (S (Db.ticks (db w))));
                Industry.name := name;
                Industry.description := None; Industry.category := None |} in
  exists w',
    _get_or_create_industry name w = (Return row, w') /\
    Db.store (db w') = {| Db.industries := Db.industries st ++ [row];
                          Db.locations := Db.locations st; Db.posts := Db.posts st |} /\
    Db.pending (db w') = [] /\ no_faults w'.
Proof.
  intros Hf Hpend Habsent st row.
  assert (Hfind : find (fun i => String.eqb (Industry.name i) name) (Db.industries st) = None).
  { apply find_absent. intros i Hi. apply String.eqb_neq. now apply Habsent. }
  assert (Hex : existsb (fun j => String.eqb (Industry.name j) name) (Db.industries st) = false).
  { apply existsb_absent. intros i Hi. apply String.eqb_neq. now apply Habsent. }
  assert (Hrefresh : find (fun j => Db.same_id (Industry.id j) (Industry.id row))
                          (Db.industries st ++ [row]) = Some row).
  { apply find_app_last.
    - intros j Hj. apply same_id_fresh. now apply in_map.
    - simpl. apply Z.eqb_refl. }
  subst st. unfold _get_or_create_industry. run_db.
  rewrite (Hf _). db_simpl. rewrite Hfind. db_simpl. rewrite Hpend. db_simpl.
  rewrite (Hf _). db_simpl.
  unfold Db.insert_row. cbn [Industry.name new_industry]. rewrite Hex.
  db_simpl. rewrite (Hf _). db_simpl.
  cbn [flushed_industry last Db.or_now Industry.created_at Industry.updated_at
       Industry.description Industry.category new_industry].
  fold row. rewrite Hrefresh.
  eexists. split; [reflexivity|]. db_simpl. repeat split. intros n. exact (Hf n).
Qed.

(** A call for a name some industry has returns the first such row and
    changes no table. *)
Lemma industry_found (name : string) (w : World) (row : Industry.t) :
  no_faults w ->
  find (fun i => String.eqb (Industry.name i) name) (Db.industries (Db.store (db w)))
  = Some row ->
  _get_or_create_industry name w = (Return row, after_round_trip w).
Proof.
  intros Hf Hfind. unfold _get_or_create_industry. run_db.
  rewrite (Hf _). db_simpl. rewrite Hfind. reflexivity.
Qed.

Lemma location_created (name : string) (w : World) :
  no_faults w -> Db.pending (db w) = [] ->
  (forall l, In l (Db.locations (Db.store (db w))) -> Location.name l <> name) ->
  let st := Db.store (db w) in
  let row := {| Location.id := Some (Db.next_id (map Location.id (Db.locations st)));
                Location.created_at := Some (Db.clock (db w) (Db.ticks (db w)));
                Location.updated_at := Some (Db.clock (db w) (S (Db.ticks (db w))));
                Location.name := name; Location.state := None;
                Location.country := "Unknown";
                Location.timezone := None; Location.metadata := None |} in
  exists w',
    _get_or_create_location name w = (Return row, w') /\
    Db.store (db w') = {| Db.industries := Db.industries st;
                          Db.locations := Db.locations st ++ [row];
                          Db.posts := Db.posts st |} /\
    Db.pending (db w') = [] /\ no_faults w'.
Proof.
  intros Hf Hpend Habsent st row.
  assert (Hfind : find (fun l => String.eqb (Location.name l) name) (Db.locations st) = None).
  { apply find_absent. intros l Hl. apply String.eqb_neq. now apply Habsent. }
  assert (Hrefresh : find (fun j => Db.same_id (Location.id j) (Location.id row))
                          (Db.locations st ++ [row]) = Some row).
  { apply find_app_last.
    - intros j Hj. apply same_id_fresh. now apply in_map.
    - simpl. apply Z.eqb_refl. }
  subst st. unfold _get_or_create_location. run_db.
  rewrite (Hf _). db_simpl. rewrite Hfind. db_simpl. rewrite Hpend. db_simpl.
  rewrite (Hf _). db_simpl.
  unfold Db.insert_row. db_simpl. rewrite (Hf _). db_simpl.
  cbn [flushed_location last Db.or_now Location.created_at Location.updated_at
       Location.name Location.state Location.country Location.timezone
       Location.metadata new_location].
  fold row. rewrite Hrefresh.
  eexists. split; [reflexivity|]. db_simpl. repeat split. intros n. exact (Hf n).
Qed.

Lemma location_found (name : string) (w : World) (row : Location.t) :
  no_faults w ->
  find (fun l => String.eqb (Location.name l) name) (Db.locations (Db.store (db w)))
  = Some row ->
  _get_or_create_location name w = (Return row, after_round_trip w).
Proof.
  intros Hf Hfind. unfold _get_or_create_location. run_db.
  rewrite (Hf _). db_simpl. rewrite Hfind. reflexivity.
Qed.

End GetOrCreate.

Section Idempotence.
Import BlogService.

(** C4. With calls made one after the other on a clean session and a
    datastore that answers: for a name no row has, [_get_or_create_industry]
    (resp. [_get_or_create_location]) inserts exactly one row, an industry with
    only its name set (resp. a location with its name and the country
    "Unknown"), and returns it; a second call with the same name returns that
    same row and leaves the tables as they are. *)
Theorem get_or_create_once (name : string) (w : World) :
  no_faults w -> Db.pending (db w) = [] ->
  let st := Db.store (db w) in
  ((forall i, In i (Db.industries st) -> Industry.name i <> name) ->
   exists row w1 w2,
     _get_or_create_industry name w = (Return row, w1) /\
     Db.store (db w1) = {| Db.industries := Db.industries st ++ [row];
                           Db.locations := Db.locations st; Db.posts := Db.posts st |} /\
     Industry.name row = name /\
     Industry.description row = None /\ Industry.category row = None /\
     _get_or_create_industry name w1 = (Return row, w2) /\
     Db.store (db w2) = Db.store (db w1)) /\
  ((forall l, In l (Db.locations st) -> Location.name l <> name) ->
   exists row w1 w2,
     _get_or_create_location name w = (Return row, w1) /\
     Db.store (db w1) = {| Db.industries := Db.industries st;
                           Db.locations := Db.locations st ++ [row];
                           Db.posts := Db.posts st |} /\
     Location.name row = name /\ Location.country row = "Unknown" /\
     Location.state row = None /\ Location.timezone row = None /\
     Location.metadata row = None /\
     _get_or_create_location name w1 = (Return row, w2) /\
     Db.store (db w2) = Db.store (db w1)).
Proof.
  intros Hf Hpend st. split; intros Habsent.
  - destruct (industry_created name w Hf Hpend Habsent) as (w1 & Hrun & Hst & _ & Hf1).
    cbv zeta in Hrun, Hst. fold st in Hrun, Hst.
    set (row := {| Industry.id := _ |}) in *.
    exists row, w1, (after_round_trip w1).
    split; [exact Hrun|]. split; [exact Hst|]. repeat (split; [reflexivity|]).
    split; [|reflexivity].
    apply industry_found; [exact Hf1|]. rewrite Hst. cbn [Db.industries].
    apply find_app_last.
    + intros i Hi. apply String.eqb_neq. now apply Habsent.
    + apply String.eqb_refl.
  - destruct (location_created name w Hf Hpend Habsent) as (w1 & Hrun & Hst & _ & Hf1).
    cbv zeta in Hrun, Hst. fold st in Hrun, Hst.
    set (row := {| Location.id := _ |}) in *.
    exists row, w1, (after_round_trip w1).
    split; [exact Hrun|]. split; [exact Hst|]. repeat (split; [reflexivity|]).
    split; [|reflexivity].
    apply location_found; [exact Hf1|]. rewrite Hst. cbn [Db.locations].
    apply find_app_last.
    + intros l Hl. apply String.eqb_neq. now apply Habsent.
    + apply String.eqb_refl.
Qed.

(** The theorem on a store that has no florist yet. *)
Lemma get_or_create_once_witness :
  exists row w1 w2,
    _get_or_create_industry "Florist" (world_on demo_store never) = (Return row, w1) /\
    Db.industries (Db.store (db w1)) = [bakery; dentist; row] /\
    Industry.name row = "Florist" /\
    _get_or_create_industry "Florist" w1 = (Return row, w2) /\
    Db.industries (Db.store (db w2)) = [bakery; dentist; row].
Proof.
  destruct (get_or_create_once "Florist" (world_on demo_store never)
              (fun _ => eq_refl) eq_refl) as (Hind & _).
  destruct Hind as (row & w1 & w2 & Hrun & Hst & Hname & _ & _ & Hrun2 & Hst2).
  - intros i [<-|[<-|[]]]; discriminate.
  - exists row, w1, w2. rewrite Hst2, Hst. repeat split; assumption.
Defined.

End Idempotence.

(** ** Creating a post *)

Section CreatePost.
Import BlogService.

Variables (industry_name location_name topic : string) (style : option string).








End CreatePost.



(** ** The average of the statistics *)

Section AverageTokens.
Import BlogService.
Local Open Scope Q_scope.

(** Whenever the statistics are returned, their average is the rounded
    [avg ... or 0] of the committed posts. *)
Lemma get_blog_stats_average (w : World) (stats : Stats) :
  fst (get_blog_stats w) = Return stats ->
  average_tokens stats
  = round2 (or_zero (sql_avg (map BlogPost.tokens_used (Db.posts (Db.store (db w)))))).
Proof.
  unfold get_blog_stats, try_except, stats_body, BaseService.count, try_except,
    BaseService.database_error, BaseService.build_query, logger_error.
  run_db.
  repeat (split_case; db_simpl).
  all: cbn [fst]; try discriminate.
  all: intros [= <-]; reflexivity.
Qed.

(** C5. In the statistics [get_blog_stats] returns, and it returns them
    whenever the datastore answers, [average_tokens] is 0 when there are no
    posts, and otherwise the mean of [tokens_used] over the posts rounded to
    two decimal places: a whole number of hundredths within half a hundredth
    of the mean.  For posts with token counts 100, 200 and 300 it is 200. *)
Theorem average_tokens_rounded_mean (w : World) :
  (no_faults w -> exists stats, fst (get_blog_stats w) = Return stats) /\
  (forall stats, fst (get_blog_stats w) = Return stats ->
     let posts := Db.posts (Db.store (db w)) in
     (posts = [] -> average_tokens stats == 0) /\
     (forall tokens, tokens <> [] ->
        map BlogPost.tokens_used posts = map Some tokens ->
        (exists hundredths : Z, average_tokens stats * 100 == inject_Z hundredths) /\
        Qabs (mean tokens - average_tokens stats) <= 1 # 200) /\
     (map BlogPost.tokens_used posts = [Some 100%Z; Some 200%Z; Some 300%Z] ->
        average_tokens stats == 200)).
Proof.
  split.
  - intros Hf. destruct (get_blog_stats_returns w Hf) as (stats & w' & Hrun & _).
    exists stats. now rewrite Hrun.
  - intros stats Hrun. pose proof (get_blog_stats_average w stats Hrun) as Havg.
    cbv zeta.
    assert (Hmean : forall tokens, tokens <> [] ->
              map BlogPost.tokens_used (Db.posts (Db.store (db w))) = map Some tokens ->
              average_tokens stats = round2 (mean tokens)).
    { intros tokens Hne Htok. rewrite Havg, Htok, (sql_avg_mean tokens Hne).
      apply round2_comp, or_zero_eq. }
    split; [|split].
    + intros Hnil. rewrite Havg, Hnil. reflexivity.
    + intros tokens Hne Htok. rewrite (Hmean tokens Hne Htok).
      destruct (round2_spec (mean tokens)) as [Hwhole Hnear].
      split; [eexists; exact Hwhole | exact Hnear].
    + intros Htok.
      rewrite (Hmean [100; 200; 300]%Z); [reflexivity | discriminate | exact Htok].
Qed.

(** The theorem on a store whose three posts used 100, 200 and 300 tokens. *)
Lemma average_tokens_rounded_mean_witness :
  exists stats,
    fst (get_blog_stats (world_on demo_store never)) = Return stats /\
    average_tokens stats == 200.
Proof.
  destruct (average_tokens_rounded_mean (world_on demo_store never)) as (Hret & Hin).
  destruct (Hret (fun _ => eq_refl)) as (stats & Hrun).
  exists stats. split; [exact Hrun|].
  destruct (Hin stats Hrun) as (_ & _ & H200). apply H200. reflexivity.
Defined.

End AverageTokens.

(** * Further properties of the services *)

(** ** The completion client, continued *)

Section RetryLog.
Import Ai.

Variables (industry location topic : string) (style : option string)
          (max_tokens : option Z).

(** The call, attempt by attempt: the world each of the four outcomes
    leaves. *)
Lemma generate_blog_content_cases (w : World) :
  let prompt := _create_blog_prompt industry location topic (fmt style) in
  let attempt := attempt_result w prompt max_tokens in
  let r := generate_blog_content industry location topic style max_tokens w in
  match attempt 0%nat, attempt 1%nat, attempt 2%nat with
  | Return g, _, _ => fst r = Return (Some g) /\ log (snd r) = log w
  | Raise e1, Return g, _ =>
      fst r = Return (Some g) /\ log (snd r) = log w ++ [attempt_warning 1 e1]
  | Raise e1, Raise e2, Return g =>
      fst r = Return (Some g) /\
      log (snd r) = log w ++ [attempt_warning 1 e1; attempt_warning 2 e2]
  | Raise e1, Raise e2, Raise e3 =>
      fst r = Raise e3 /\
      log (snd r) = log w ++ [attempt_warning 1 e1; attempt_warning 2 e2;
                              exhausted_error e3]
  end.
Proof.
  intros prompt attempt r. subst attempt r.
  unfold generate_blog_content. fold prompt. unfold max_retries. cbn [seq].
  destruct (attempt_result w prompt max_tokens 0) as [g0|e1] eqn:E0.
  { rewrite (retry_loop_returns 3 retry_delay prompt max_tokens _ _ _ _ E0).
    split; reflexivity. }
  rewrite (retry_loop_retries 3 retry_delay prompt max_tokens _ _ _ _ E0) by discriminate.
  match goal with
  | |- context [retry_loop _ _ _ _ _ ?x] => set (w1 := x)
  end.
  assert (S1 : forall k, attempt_result w1 prompt max_tokens k
                         = attempt_result w prompt max_tokens (S k))
    by (intros k; apply attempt_result_shift).
  destruct (attempt_result w prompt max_tokens 1) as [g1|e2] eqn:E1;
    rewrite <- S1 in E1.
  { rewrite (retry_loop_returns 3 retry_delay prompt max_tokens _ _ _ _ E1).
    split; reflexivity. }
  rewrite (retry_loop_retries 3 retry_delay prompt max_tokens _ _ _ _ E1) by discriminate.
  match goal with
  | |- context [retry_loop _ _ _ _ _ ?x] => set (w2 := x)
  end.
  assert (S2 : forall k, attempt_result w2 prompt max_tokens k
                         = attempt_result w1 prompt max_tokens (S k))
    by (intros k; apply attempt_result_shift).
  destruct (attempt_result w prompt max_tokens 2) as [g2|e3] eqn:E2;
    rewrite <- S1, <- S2 in E2.
  { rewrite (retry_loop_returns 3 retry_delay prompt max_tokens _ _ _ _ E2).
    split; [reflexivity|]. cbn. now rewrite <- app_assoc. }
  rewrite (retry_loop_raises 3 retry_delay prompt max_tokens _ _ _ _ E2) by reflexivity.
  split; [reflexivity|]. cbn. now rewrite <- !app_assoc.
Qed.

(** X1. [generate_blog_content] never returns [None]: whatever the provider
    does, the call returns a result dict or raises. *)
Theorem generate_blog_content_never_none (w : World) :
  fst (generate_blog_content industry location topic style max_tokens w) <> Return None.
Proof.
  pose proof (generate_blog_content_cases w) as H. cbv zeta in H.
  destruct (attempt_result w _ max_tokens 0); [destruct H as [-> _]; discriminate|].
  destruct (attempt_result w _ max_tokens 1); [destruct H as [-> _]; discriminate|].
  destruct (attempt_result w _ max_tokens 2); destruct H as [-> _]; discriminate.
Qed.

(** X2. Each failed attempt leaves exactly one log record: a warning with
    the attempt number for the first and the second failure, an error record
    (and no warning) for the third; a call whose first attempt succeeds logs
    nothing. *)
Theorem generate_blog_content_log (w : World) :
  let prompt := _create_blog_prompt industry location topic (fmt style) in
  let attempt := attempt_result w prompt max_tokens in
  let r := generate_blog_content industry location topic style max_tokens w in
  (forall g, attempt 0%nat = Return g -> log (snd r) = log w) /\
  (forall e1 g, attempt 0%nat = Raise e1 -> attempt 1%nat = Return g ->
     log (snd r) = log w ++ [attempt_warning 1 e1]) /\
  (forall e1 e2 g,
     attempt 0%nat = Raise e1 -> attempt 1%nat = Raise e2 -> attempt 2%nat = Return g ->
     log (snd r) = log w ++ [attempt_warning 1 e1; attempt_warning 2 e2]) /\
  (forall e1 e2 e3,
     attempt 0%nat = Raise e1 -> attempt 1%nat = Raise e2 -> attempt 2%nat = Raise e3 ->
     log (snd r) = log w ++ [attempt_warning 1 e1; attempt_warning 2 e2;
                             exhausted_error e3]).
Proof.
  pose proof (generate_blog_content_cases w) as H. cbv zeta in H |- *.
  repeat split.
  - intros g E0. rewrite E0 in H. apply H.
  - intros e1 g E0 E1. rewrite E0, E1 in H. apply H.
  - intros e1 e2 g E0 E1 E2. rewrite E0, E1, E2 in H. apply H.
  - intros e1 e2 e3 E0 E1 E2. rewrite E0, E1, E2 in H. apply H.
Qed.

End RetryLog.

(** The theorem on the provider that fails twice: two warnings. *)
Lemma generate_blog_content_log_witness :
  Ai.log (snd (Ai.generate_blog_content "Bakery" "Austin" "Sourdough trends"
                                        (Some "casual") None flaky_world))
  = [attempt_warning 1 (Exception "upstream timeout");
     attempt_warning 2 (Exception "upstream timeout")].
Proof.
  destruct (generate_blog_content_log "Bakery" "Austin" "Sourdough trends"
              (Some "casual") None flaky_world) as (_ & _ & H & _).
  exact (H (Exception "upstream timeout") (Exception "upstream timeout")
           {| Ai.content := "Sourdough is back."; Ai.tokens_used := 321;
              Ai.finish_reason_ := "stop" |} eq_refl eq_refl eq_refl).
Defined.

(** ** Categorization, continued *)

Section Shadowing.
Import IndustryService.

Lemma append_assoc (a b c : string) :
  String.append (String.append a b) c = String.append a (String.append b c).
Proof.
  induction a as [|x a IH]; [reflexivity|].
  change (String x (String.append (String.append a b) c)
          = String x (String.append a (String.append b c))).
  now rewrite IH.
Qed.

(** Occurring in is transitive. *)
Lemma occurs_in_trans (a b c : string) :
  PyStr.occurs_in a b -> PyStr.occurs_in b c -> PyStr.occurs_in a c.
Proof.
  intros (p1 & q1 & ->) (p2 & q2 & ->).
  exists (String.append p2 p1), (String.append q1 q2).
  now rewrite !append_assoc.
Qed.

(** X3. A name in which "it" occurs is categorized as technology, whatever
    else occurs in it.  The keywords of later categories that contain "it",
    such as "fitness" (healthcare) and "furniture" (retail), therefore never
    decide: a name in which one of them occurs is technology. *)
Theorem it_shadows_later_keywords (name : string) :
  (PyStr.occurs_in "it" (PyStr.lower name) -> _categorize_industry name = "technology") /\
  (forall category keywords keyword,
      In (category, keywords) categories -> In keyword keywords ->
      PyStr.contains "it" keyword = true ->
      PyStr.occurs_in keyword (PyStr.lower name) ->
      _categorize_industry name = "technology") /\
  PyStr.contains "it" "fitness" = true /\ PyStr.contains "it" "furniture" = true.
Proof.
  assert (Hit : PyStr.occurs_in "it" (PyStr.lower name) ->
                _categorize_industry name = "technology").
  { intros Hocc. unfold _categorize_industry, categories. cbn [categorize_loop].
    assert (Hany : any_keyword
                     ["software"; "it"; "cybersecurity"; "web development";
                      "mobile apps"; "cloud computing"; "artificial intelligence"]
                     (PyStr.lower name) = true).
    { apply any_keyword_spec. exists "it". split; [right; now left | exact Hocc]. }
    now rewrite Hany. }
  split; [exact Hit|]. split; [|split; reflexivity].
  intros category keywords keyword _ _ Hc Hocc. apply Hit.
  apply contains_spec in Hc. exact (occurs_in_trans _ _ _ Hc Hocc).
Qed.

(** The theorem on a gym: "fitness" is a healthcare keyword, the answer is
    technology. *)
Lemma it_shadows_later_keywords_witness :
  _categorize_industry "Fitness Center" = "technology".
Proof.
  destruct (it_shadows_later_keywords "Fitness Center") as (_ & H & _).
  apply (H "healthcare"
           ["medical"; "dental"; "pharmacy"; "wellness"; "fitness";
            "mental health"; "healthcare technology"] "fitness").
  - right; now left.
  - do 4 right; now left.
  - reflexivity.
  - exists EmptyString, " center". reflexivity.
Defined.

(** The loop answers the tag of one of its items, or "other". *)
Lemma categorize_loop_range (items : list (string * list string)) (name_lower : string) :
  In (categorize_loop items name_lower) (map fst items ++ ["other"]).
Proof.
  induction items as [|[c k] items IH]; cbn [categorize_loop map app].
  - now left.
  - destruct (any_keyword k name_lower); [now left | now right].
Qed.

End Shadowing.

(** ** Full names, continued *)

Section FullNameParts.
Import LocationService.



End FullNameParts.

(** ** Lookup and deletion by id *)

Section GetDelete.
Import BaseService Crud.

Lemma of_int_eq (v : option Z) (id : Z) :
  bool_decide (Models.of_int v = VInt id) = true <-> v = Some id.
Proof.
  rewrite bool_decide_eq_true. split.
  - intros Hb. destruct v as [z|]; [injection Hb as ->; reflexivity | discriminate].
  - now intros ->.
Qed.

Lemma of_int_same_id (v : option Z) (id : Z) :
  bool_decide (Models.of_int v = VInt id) = Db.same_id v (Some id).
Proof.
  destruct v as [z|]; cbn.
  - destruct (Z.eqb_spec z id) as [->|Hne].
    + now apply bool_decide_eq_true.
    + apply bool_decide_eq_false. congruence.
  - now apply bool_decide_eq_false.
Qed.

(** [get] when the datastore answers. *)
Lemma get_answered {R : Type} `{Model R} (read : R -> value) (id : Z) (b : bool)
      (w : World) :
  attribute "id" = Some (Column read) ->
  Db.faults (db w) (Db.ops (db w)) = None ->
  get id b w
  = (match find (fun r => bool_decide (read r = VInt id)) (table (Db.store (db w))) with
     | Some r => Return (Some r)
     | None => if b then Raise (HTTPException 404 (String.append __name__ " not found"))
               else Return None
     end, after_round_trip w).
Proof.
  intros Hid Hf. unfold get, first_by_id, try_except, database_error.
  rewrite Hid. run_db. rewrite Hf. db_simpl.
  destruct (find _ _); [reflexivity|]. destruct b; reflexivity.
Qed.

Ltac run_delete Hpend :=
  unfold delete, get, first_by_id, try_except, database_error,
    DbDelete.delete_commit, logger_error;
  cbn [attribute Models.industry_model Models.location_model Models.blogpost_model];
  simpl String.eqb; cbn iota;
  unfold Models.base_attribute; simpl String.eqb; cbn iota;
  run_db; split_cases Hpend; try rewrite Hpend; db_simpl;
  try match goal with
      | H : is_SQLAlchemyError (HTTPException _ _) = true |- _ => discriminate H
      end;
  intros Heq; injection Heq as <- <-; db_simpl;
  (split; [reflexivity || exact Hpend|]); (split; [reflexivity|]);
  try (left; split; [reflexivity | intros i; discriminate]).

(** What a [delete] leaves: the store as it was, or the store without the
    row found and what cascades from it. *)
Lemma delete_industry_frame (id : Z) (b : bool) (w : World)
      (r : Res (option Industry.t)) (w' : World) :
  Db.pending (db w) = [] ->
  delete (R := Industry.t) id b w = (r, w') ->
  Db.pending (db w') = [] /\ ai w' = ai w /\
  ((Db.store (db w') = Db.store (db w) /\ (forall i, r <> Return (Some i))) \/
   (exists i, In i (Db.industries (Db.store (db w))) /\ Industry.id i = Some id /\
              r = Return (Some i) /\
              Db.store (db w') = DbDelete.remove_row (RowIndustry i) (Db.store (db w)))).
Proof.
  intros Hpend. run_delete Hpend.
  all: right; eexists; cbn [DbDelete.remove_row as_row industry_mapped].
  all: match goal with Hf : find _ _ = Some _ |- _ => apply find_some in Hf as [Hin Hid] end.
  all: apply of_int_eq in Hid.
  all: repeat split; try eassumption; try reflexivity.
Qed.

Lemma delete_location_frame (id : Z) (b : bool) (w : World)
      (r : Res (option Location.t)) (w' : World) :
  Db.pending (db w) = [] ->
  delete (R := Location.t) id b w = (r, w') ->
  Db.pending (db w') = [] /\ ai w' = ai w /\
  ((Db.store (db w') = Db.store (db w) /\ (forall l, r <> Return (Some l))) \/
   (exists l, In l (Db.locations (Db.store (db w))) /\ Location.id l = Some id /\
              r = Return (Some l) /\
              Db.store (db w') = DbDelete.remove_row (RowLocation l) (Db.store (db w)))).
Proof.
  intros Hpend. run_delete Hpend.
  all: right; eexists; cbn [DbDelete.remove_row as_row location_mapped].
  all: match goal with Hf : find _ _ = Some _ |- _ => apply find_some in Hf as [Hin Hid] end.
  all: apply of_int_eq in Hid.
  all: repeat split; try eassumption; try reflexivity.
Qed.

Lemma delete_post_frame (id : Z) (b : bool) (w : World)
      (r : Res (option BlogPost.t)) (w' : World) :
  Db.pending (db w) = [] ->
  delete (R := BlogPost.t) id b w = (r, w') ->
  Db.pending (db w') = [] /\ ai w' = ai w /\
  ((Db.store (db w') = Db.store (db w) /\ (forall p, r <> Return (Some p))) \/
   (exists p, In p (Db.posts (Db.store (db w))) /\ BlogPost.id p = Some id /\
              r = Return (Some p) /\
              Db.store (db w') = DbDelete.remove_row (RowPost p) (Db.store (db w)))).
Proof.
  intros Hpend. run_delete Hpend.
  all: right; eexists; cbn [DbDelete.remove_row as_row blogpost_mapped].
  all: match goal with Hf : find _ _ = Some _ |- _ => apply find_some in Hf as [Hin Hid] end.
  all: apply of_int_eq in Hid.
  all: repeat split; try eassumption; try reflexivity.
Qed.

End GetDelete.

Section DeleteProperties.
Import BaseService Crud.

(** X5. Deleting an industry by id removes the industry rows with that id
    and, by the cascade of [Industry.posts], every post of that industry, and
    nothing else; deleting a location does the same with the posts of the
    location. *)
Theorem delete_cascades (id : Z) (b : bool) (w w' : World) :
  Db.pending (db w) = [] ->
  let st := Db.store (db w) in
  let st' := Db.store (db w') in
  (forall i, delete (R := Industry.t) id b w = (Return (Some i), w') ->
     In i (Db.industries st) /\ Industry.id i = Some id /\
     (forall j, In j (Db.industries st') <->
                In j (Db.industries st) /\ Industry.id j <> Some id) /\
     (forall p, In p (Db.posts st') <->
                In p (Db.posts st) /\ BlogPost.industry_id p <> Some id) /\
     Db.locations st' = Db.locations st) /\
  (forall l, delete (R := Location.t) id b w = (Return (Some l), w') ->
     In l (Db.locations st) /\ Location.id l = Some id /\
     (forall j, In j (Db.locations st') <->
                In j (Db.locations st) /\ Location.id j <> Some id) /\
     (forall p, In p (Db.posts st') <->
                In p (Db.posts st) /\ BlogPost.location_id p <> Some id) /\
     Db.industries st' = Db.industries st).
Proof.
  intros Hpend st st'. subst st st'.
  assert (Hneq : forall v : option Z,
             negb (Db.same_id v (Some id)) = true <-> v <> Some id).
  { intros v. rewrite negb_true_iff, <- of_int_same_id.
    rewrite <- not_true_iff_false, of_int_eq. tauto. }
  split.
  - intros i Hdel.
    destruct (delete_industry_frame id b w _ _ Hpend Hdel)
      as (_ & _ & [[_ Hno] | (i' & Hin & Hid & [= <-] & ->)]);
      [now destruct (Hno i)|].
    split; [exact Hin|]. split; [exact Hid|].
    cbn [DbDelete.remove_row Db.industries Db.posts Db.locations]. rewrite Hid.
    split; [intros j; rewrite filter_In, Hneq; tauto|].
    split; [intros p; rewrite filter_In, Hneq; tauto | reflexivity].
  - intros l Hdel.
    destruct (delete_location_frame id b w _ _ Hpend Hdel)
      as (_ & _ & [[_ Hno] | (l' & Hin & Hid & [= <-] & ->)]);
      [now destruct (Hno l)|].
    split; [exact Hin|]. split; [exact Hid|].
    cbn [DbDelete.remove_row Db.industries Db.posts Db.locations]. rewrite Hid.
    split; [intros j; rewrite filter_In, Hneq; tauto|].
    split; [intros p; rewrite filter_In, Hneq; tauto | reflexivity].
Qed.

End DeleteProperties.

(** The theorem on the store of the examples: deleting the bakery takes its
    three posts along and leaves the dentist. *)
Lemma delete_cascades_witness :
  let w := world_on demo_store never in
  let w' := snd (Crud.delete (R := Industry.t) 1 true w) in
  Db.industries (Db.store (db w')) = [dentist] /\
  ~ In (post_with 1 100) (Db.posts (Db.store (db w'))).
Proof.
  intros w w'.
  destruct (delete_cascades 1 true w w' eq_refl) as [H _].
  destruct (H bakery eq_refl) as (_ & _ & _ & Hp & _).
  split; [reflexivity|]. intros Hin. apply Hp in Hin as [_ Hne]. now apply Hne.
Defined.

Section DeleteThenGet.
Import BaseService Crud.

(** X6. [get] and [delete] of an id that no row has, on a datastore that
    answers: with [raise_not_found] both raise the 404 that names the model
    class, without it both return [None]; the store is left as it was. *)
Theorem missing_id {R : Type} `{Model R} `{Mapped R} (read : R -> value)
        (id : Z) (w : World) :
  attribute "id" = Some (Column read) ->
  Db.faults (db w) (Db.ops (db w)) = None ->
  (forall r, In r (table (Db.store (db w))) -> read r <> VInt id) ->
  let not_found := HTTPException 404 (String.append __name__ " not found") in
  get id true w = (Raise not_found, after_round_trip w) /\
  get id false w = (Return None, after_round_trip w) /\
  delete id true w = (Raise not_found, after_round_trip w) /\
  delete id false w = (Return None, after_round_trip w).
Proof.
  intros Hid Hf Hnone not_found.
  assert (Hfind : find (fun r => bool_decide (read r = VInt id)) (table (Db.store (db w)))
                  = None).
  { apply find_absent. intros r Hr. apply bool_decide_eq_false. now apply Hnone. }
  assert (Hget : forall b, get id b w
                 = (if b then Raise not_found else Return None, after_round_trip w)).
  { intros b. rewrite (get_answered read id b w Hid Hf), Hfind. now destruct b. }
  split; [exact (Hget true)|]. split; [exact (Hget false)|].
  unfold delete, try_except, bind. rewrite !Hget. split; reflexivity.
Qed.

Lemma industry_id_attribute :
  attribute (R := Industry.t) "id"
  = Some (Column (fun r => Models.of_int (Industry.id r))).
Proof. reflexivity. Qed.

(** X7. Once an industry has been deleted by id, looking that id up again
    on a datastore that answers finds nothing: [get] raises the 404, or
    returns [None] without [raise_not_found]. *)
Theorem delete_then_get (id : Z) (b : bool) (w w1 : World) (i : Industry.t) :
  Db.pending (db w) = [] ->
  delete (R := Industry.t) id b w = (Return (Some i), w1) ->
  Db.faults (db w1) (Db.ops (db w1)) = None ->
  fst (get (R := Industry.t) id true w1)
  = Raise (HTTPException 404 "Industry not found") /\
  fst (get (R := Industry.t) id false w1) = Return None.
Proof.
  intros Hpend Hdel Hf.
  destruct (delete_industry_frame id b w _ _ Hpend Hdel)
    as (_ & _ & [[_ Hno] | (i' & Hin & Hid & [= <-] & Hst)]);
    [now destruct (Hno i)|].
  assert (Hfind : find (fun r => bool_decide (Models.of_int (Industry.id r) = VInt id))
                       (table (Db.store (db w1))) = None).
  { apply find_absent. intros j Hj. rewrite Hst in Hj.
    cbn [table Models.industry_model DbDelete.remove_row Db.industries] in Hj.
    apply filter_In in Hj as [_ Hj]. rewrite Hid in Hj.
    rewrite of_int_same_id. now apply negb_true_iff. }
  rewrite !(get_answered (fun r => Models.of_int (Industry.id r)) id _ w1
             industry_id_attribute Hf).
  rewrite Hfind. split; reflexivity.
Qed.

End DeleteThenGet.

(** The theorems on the store of the examples: no industry has the id 7, and
    the bakery is gone after its deletion. *)
Lemma missing_id_witness :
  fst (Crud.get (R := Industry.t) 7 true (world_on demo_store never))
  = Raise (HTTPException 404 "Industry not found").
Proof.
  destruct (missing_id (R := Industry.t) (fun r => Models.of_int (Industry.id r)) 7
              (world_on demo_store never) industry_id_attribute eq_refl) as (Hget & _).
  - intros r [<-|[<-|[]]]; discriminate.
  - now rewrite Hget.
Defined.

Lemma delete_then_get_witness :
  let w := world_on demo_store never in
  let w1 := snd (Crud.delete (R := Industry.t) 1 true w) in
  fst (Crud.get (R := Industry.t) 1 true w1)
  = Raise (HTTPException 404 "Industry not found").
Proof.
  intros w w1.
  exact (proj1 (delete_then_get 1 true w w1 bakery eq_refl eq_refl eq_refl)).
Defined.

(** ** Referential integrity *)

Section References.
Import BaseService Crud.

Lemma same_id_spec (a b : option Z) :
  Db.same_id a b = true <-> exists x, a = Some x /\ b = Some x.
Proof.
  destruct a as [x|], b as [y|]; cbn; split; try discriminate.
  - intros Hxy. apply Z.eqb_eq in Hxy as ->. now exists y.
  - intros (z & [= ->] & [= ->]). apply Z.eqb_refl.
  - intros (z & _ & Hz). discriminate.
  - intros (z & Hz & _). discriminate.
  - intros (z & Hz & _). discriminate.
Qed.

(** A deletion with its cascade leaves no post without its parents. *)
Lemma remove_row_valid (target : Row) (st : Db.Store) :
  references_valid st -> references_valid (DbDelete.remove_row target st).
Proof.
  intros Hv p Hp.
  destruct target as [i|l|q]; cbn [DbDelete.remove_row Db.posts Db.industries Db.locations] in *;
    apply filter_In in Hp as [Hp Hkeep]; apply negb_true_iff in Hkeep;
    destruct (Hv p Hp) as [(j & Hj & Hpj) (k & Hk & Hpk)].
  - split; [|now exists k]. exists j. split; [|exact Hpj].
    apply filter_In. split; [exact Hj|]. apply negb_true_iff.
    apply not_true_iff_false. intros Hji. apply not_true_iff_false in Hkeep. apply Hkeep.
    apply same_id_spec in Hji as (x & Hx & Hx'). apply same_id_spec in Hpj as (y & Hy & Hy').
    apply same_id_spec. exists x. split; congruence.
  - split; [now exists j|]. exists k. split; [|exact Hpk].
    apply filter_In. split; [exact Hk|]. apply negb_true_iff.
    apply not_true_iff_false. intros Hkl. apply not_true_iff_false in Hkeep. apply Hkeep.
    apply same_id_spec in Hkl as (x & Hx & Hx'). apply same_id_spec in Hpk as (y & Hy & Hy').
    apply same_id_spec. exists x. split; congruence.
  - split; [now exists j | now exists k].
Qed.

(** X8. Deleting by id keeps referential integrity, whatever the datastore
    does: when every post refers to a committed industry and a committed
    location before a [delete] of an industry, of a location or of a post,
    the same holds after it (the cascade removes the posts of a deleted
    parent). *)
Theorem delete_keeps_references (id : Z) (b : bool) (w : World) :
  Db.pending (db w) = [] ->
  references_valid (Db.store (db w)) ->
  references_valid (Db.store (db (snd (delete (R := Industry.t) id b w)))) /\
  references_valid (Db.store (db (snd (delete (R := Location.t) id b w)))) /\
  references_valid (Db.store (db (snd (delete (R := BlogPost.t) id b w)))).
Proof.
  intros Hpend Hv. split; [|split].
  - destruct (delete (R := Industry.t) id b w) as [r w'] eqn:Hdel. cbn [snd].
    destruct (delete_industry_frame id b w _ _ Hpend Hdel)
      as (_ & _ & [[-> _] | (i & _ & _ & _ & ->)]);
      [exact Hv | now apply remove_row_valid].
  - destruct (delete (R := Location.t) id b w) as [r w'] eqn:Hdel. cbn [snd].
    destruct (delete_location_frame id b w _ _ Hpend Hdel)
      as (_ & _ & [[-> _] | (i & _ & _ & _ & ->)]);
      [exact Hv | now apply remove_row_valid].
  - destruct (delete (R := BlogPost.t) id b w) as [r w'] eqn:Hdel. cbn [snd].
    destruct (delete_post_frame id b w _ _ Hpend Hdel)
      as (_ & _ & [[-> _] | (i & _ & _ & _ & ->)]);
      [exact Hv | now apply remove_row_valid].
Qed.

End References.

Lemma demo_store_valid : references_valid demo_store.
Proof.
  intros p Hp. split; [exists bakery | exists austin_row];
    (split; [now left|]);
    cbn in Hp; destruct Hp as [<-|[<-|[<-|[]]]]; reflexivity.
Defined.

(** The theorem on the store of the examples, where the bakery has posts. *)
Lemma delete_keeps_references_witness :
  references_valid
    (Db.store (db (snd (Crud.delete (R := Industry.t) 1 true
                                    (world_on demo_store never))))).
Proof.
  exact (proj1 (delete_keeps_references 1 true (world_on demo_store never)
                                        eq_refl demo_store_valid)).
Defined.

(** ** Industries: creation with a category, related industries *)

Section IndustryOperations.
Import BaseService Crud IndustryOps.

(** What [create_with_category] leaves, whatever the datastore does: on a
    failure the store as it was and the 500; on a return the row appended. *)
Lemma create_with_category_frame (name : string) (description : option string)
      (w : World) (r : Res Industry.t) (w' : World) :
  Db.pending (db w) = [] ->
  create_with_category name description w = (r, w') ->
  Db.pending (db w') = [] /\
  ((exists e, r = Raise (HTTPException 500 (str e)) /\
              Db.store (db w') = Db.store (db w)) \/
   (exists e i, r = Raise (HTTPException 500 (str e)) /\
      existsb (fun j => String.eqb (Industry.name j) name)
              (Db.industries (Db.store (db w))) = false /\
      Db.store (db w') = {| Db.industries := Db.industries (Db.store (db w)) ++ [i];
                            Db.locations := Db.locations (Db.store (db w));
                            Db.posts := Db.posts (Db.store (db w)) |}) \/
   (exists i, r = Return i /\
      existsb (fun j => String.eqb (Industry.name j) name)
              (Db.industries (Db.store (db w))) = false /\
      Industry.id i = Some (Db.next_id (map Industry.id (Db.industries (Db.store (db w))))) /\
      Industry.name i = name /\ Industry.description i = description /\
      Industry.category i = Some (IndustryService._categorize_industry name) /\
      Db.store (db w') = {| Db.industries := Db.industries (Db.store (db w)) ++ [i];
                            Db.locations := Db.locations (Db.store (db w));
                            Db.posts := Db.posts (Db.store (db w)) |})).
Proof.
  intros Hpend. unfold create_with_category, try_except, logger_error. run_db.
  split_cases Hpend. all: try rewrite Hpend; db_simpl.
  all: intros Heq; injection Heq as <- <-; db_simpl.
  all: (split; [reflexivity|]).
  all: try match goal with
           | H : Db.insert_row _ _ (RowIndustry (categorized _ _)) _ = Return _ |- _ =>
               pose proof H as Hex; unfold Db.insert_row in Hex;
               cbn [Industry.name categorized] in Hex;
               destruct (existsb _ _) eqn:Hdup in Hex; [discriminate Hex|]; clear Hex;
               apply insert_industry in H as (i' & -> & -> & Hid' & Hn' & Hd' & Hc')
           end; db_simpl.
  all: try (left; eexists; split; reflexivity).
  all: cbn [Db.industries categorized Industry.name Industry.description
            Industry.category BlogService.flushed_industry last] in *.
  all: try (right; left; eexists _, i'; repeat split; solve [assumption | reflexivity]).
  all: try (right; left; exists Db.InvalidRequestError, i';
            repeat split; solve [assumption | reflexivity]).
  right; right.
  match goal with Hf : find _ (_ ++ [i']) = Some ?j |- _ =>
    rewrite (find_app_last _ _ i') in Hf;
      [injection Hf as <-
      | intros y Hy; rewrite Hid'; apply same_id_fresh; now apply in_map
      | rewrite Hid'; cbn; apply Z.eqb_refl]
  end.
  exists i'. repeat split; assumption.
Qed.

End IndustryOperations.

Section IndustryTheorems.
Import BaseService Crud IndustryOps.

Lemma existsb_present {A} (p : A -> bool) (l : list A) (x : A) :
  In x l -> p x = true -> existsb p l = true.
Proof. intros Hin Hp. apply existsb_exists. now exists x. Qed.

Lemma existsb_none {A} (p : A -> bool) (l : list A) :
  existsb p l = false -> forall y, In y l -> p y = false.
Proof.
  intros Hex y Hy. destruct (p y) eqn:Hp; [|reflexivity].
  now rewrite (existsb_present p l y Hy Hp) in Hex.
Qed.


(** The datastore answers the next round trip of [w]. *)
Lemma upsert_finds (name : string) (w : World) (row : Industry.t) :
  Db.faults (db w) (Db.ops (db w)) = None ->
  find (fun i => String.eqb (Industry.name i) name) (Db.industries (Db.store (db w)))
  = Some row ->
  BlogService._get_or_create_industry name w = (Return row, after_round_trip w).
Proof.
  intros Hf Hfind. unfold BlogService._get_or_create_industry. run_db.
  rewrite Hf. db_simpl. rewrite Hfind. reflexivity.
Qed.

(** X10. An industry [create_with_category] returns is the one row the call
    appended; its category is the tag [_categorize_industry] gives its name,
    one of the five categories or "other"; and it is the row later lookups
    give back: [get] by its id, and [_get_or_create_industry] by its name,
    which inserts nothing and leaves the category as it is. *)
Theorem create_with_category_round_trip (name : string) (description : option string)
        (w w1 : World) (i : Industry.t) :
  Db.pending (db w) = [] ->
  create_with_category name description w = (Return i, w1) ->
  Db.industries (Db.store (db w1)) = Db.industries (Db.store (db w)) ++ [i] /\
  Industry.name i = name /\ Industry.description i = description /\
  Industry.category i = Some (IndustryService._categorize_industry name) /\
  In (IndustryService._categorize_industry name)
     ["technology"; "healthcare"; "retail"; "services"; "hospitality"; "other"] /\
  (Db.faults (db w1) (Db.ops (db w1)) = None ->
   (exists id, Industry.id i = Some id /\
               forall b, get (R := Industry.t) id b w1
                         = (Return (Some i), after_round_trip w1)) /\
   BlogService._get_or_create_industry name w1 = (Return i, after_round_trip w1)).
Proof.
  intros Hpend Hrun.
  destruct (create_with_category_frame _ _ _ _ _ Hpend Hrun)
    as (_ & [(e & [=] & _) | [(e & j & [=] & _)
                             | (j & [= <-] & Hno & Hid & Hn & Hd & Hc & Hst)]]).
  rewrite Hst. cbn [Db.industries].
  split; [reflexivity|]. split; [exact Hn|]. split; [exact Hd|]. split; [exact Hc|].
  split; [exact (categorize_loop_range IndustryService.categories (PyStr.lower name))|].
  intros Hf. split.
  - eexists. split; [exact Hid|]. intros b.
    rewrite (get_answered (fun r => Models.of_int (Industry.id r)) _ b w1
               industry_id_attribute Hf).
    rewrite Hst. cbn [table Models.industry_model Db.industries].
    rewrite (find_app_last _ _ i); [reflexivity | |].
    + intros y Hy. rewrite of_int_same_id. apply same_id_fresh. now apply in_map.
    + apply of_int_eq. exact Hid.
  - apply upsert_finds; [exact Hf|]. rewrite Hst. cbn [Db.industries].
    apply find_app_last.
    + intros y Hy. exact (existsb_none _ _ Hno y Hy).
    + rewrite Hn. apply String.eqb_refl.
Qed.

End IndustryTheorems.


Lemma create_with_category_round_trip_witness :
  let w := world_on demo_store never in
  let r := IndustryOps.create_with_category "Dental Clinic" None w in
  exists i, fst r = Return i /\
            Industry.category i = Some "healthcare" /\
            fst (BlogService._get_or_create_industry "Dental Clinic" (snd r)) = Return i.
Proof.
  intros w r.
  set (i := {| Industry.id := Some 3%Z; Industry.created_at := Some 1000%Z;
               Industry.updated_at := Some 1001%Z; Industry.name := "Dental Clinic";
               Industry.description := None; Industry.category := Some "healthcare" |}).
  assert (Hrun : IndustryOps.create_with_category "Dental Clinic" None w = (Return i, snd r))
    by (vm_compute; reflexivity).
  destruct (create_with_category_round_trip "Dental Clinic" None w (snd r) i eq_refl Hrun)
    as (_ & _ & _ & Hc & _ & Hlook).
  exists i. split; [exact (f_equal fst Hrun)|]. split; [exact Hc|].
  destruct (Hlook eq_refl) as (_ & Hup). now rewrite Hup.
Defined.

Section Pages.

Lemma firstn_subset {A} (n : nat) (l : list A) (x : A) : In x (firstn n l) -> In x l.
Proof.
  revert l. induction n as [|n IH]; intros [|y l]; cbn; try tauto.
  intros [->|Hx]; [now left | right; now apply IH].
Qed.

Lemma skipn_subset {A} (n : nat) (l : list A) (x : A) : In x (skipn n l) -> In x l.
Proof.
  revert l. induction n as [|n IH]; intros [|y l]; cbn; try tauto.
  intros Hx. right. now apply IH.
Qed.

End Pages.

Section Related.
Import IndustryOps.

(** X11. Whatever goes wrong in [get_related_industries], the caller gets
    the same 500; in particular a name that no industry has is answered with
    that 500 and not with the 404 the body raises for it, which the
    [except Exception] clause catches. *)
Theorem get_related_industries_errors (industry_name : string) (limit : nat) (w : World) :
  let generic := HTTPException 500 "Error finding related industries" in
  (forall e, fst (get_related_industries industry_name limit w) = Raise e -> e = generic) /\
  ((forall i, In i (Db.industries (Db.store (db w))) -> Industry.name i <> industry_name) ->
   fst (get_related_industries industry_name limit w) = Raise generic).
Proof.
  cbv zeta. split.
  - intros e. unfold get_related_industries, try_except, logger_error. run_db.
    repeat (split_case; db_simpl); cbn [fst]; intros Heq; try discriminate Heq;
      injection Heq as <-; reflexivity.
  - intros Habsent.
    assert (Hfind : find (fun i => String.eqb (Industry.name i) industry_name)
                         (Db.industries (Db.store (db w))) = None).
    { apply find_absent. intros i Hi. apply String.eqb_neq. now apply Habsent. }
    unfold get_related_industries, try_except, logger_error. run_db.
    destruct (Db.faults (db w) (Db.ops (db w))); db_simpl; [reflexivity|].
    rewrite Hfind. reflexivity.
Qed.

(** X12. The industries [get_related_industries] returns are committed
    industries, at most [limit] of them, that have the category of the first
    industry of the given name (industries without a category are related to
    each other) and another name than the one given: the industry asked
    about is never among them. *)
Theorem get_related_industries_result (industry_name : string) (limit : nat)
        (w : World) (related : list Industry.t) :
  fst (get_related_industries industry_name limit w) = Return related ->
  (length related <= limit)%nat /\
  exists industry,
    find (fun i => String.eqb (Industry.name i) industry_name)
         (Db.industries (Db.store (db w))) = Some industry /\
    forall j, In j related ->
      In j (Db.industries (Db.store (db w))) /\
      Industry.category j = Industry.category industry /\
      Industry.name j <> industry_name.
Proof.
  unfold get_related_industries, try_except, logger_error. run_db.
  repeat (split_case; db_simpl); cbn [fst]; intros [= <-].
  split; [apply firstn_le_length|].
  eexists. split; [reflexivity|].
  intros j Hj. apply firstn_subset in Hj. apply filter_In in Hj as [Hin Hrel].
  unfold related_to in Hrel. apply andb_true_iff in Hrel as [Hcat Hname].
  split; [exact Hin|]. split.
  - now apply bool_decide_eq_true in Hcat.
  - apply String.eqb_neq. now apply negb_true_iff.
Qed.

End Related.

Lemma get_related_industries_errors_witness :
  fst (IndustryOps.get_related_industries "Florist" 5 (world_on demo_store never))
  = Raise (HTTPException 500 "Error finding related industries").
Proof.
  destruct (get_related_industries_errors "Florist" 5 (world_on demo_store never))
    as (_ & H).
  apply H. intros i [<-|[<-|[]]]; discriminate.
Defined.

Lemma get_related_industries_result_witness :
  fst (IndustryOps.get_related_industries "Bakery" 5 (world_on three_industries never))
  = Return [florist] /\
  Industry.category florist = Industry.category bakery.
Proof.
  destruct (get_related_industries_result "Bakery" 5 (world_on three_industries never)
              [florist] eq_refl) as (_ & industry & [= <-] & H).
  split; [reflexivity|]. apply (H florist). now left.
Defined.

(** ** Listing and counting, continued *)

Section Paging.
Import BaseService.
Context {R : Type} `{Model R}.

Lemma build_query_criteria (filters : option (list (string * value))) (w : World) :
  build_query filters w
  = (match criteria_of filters with Return cs => Return cs | Raise e => Raise e end, w).
Proof.
  destruct filters as [[|kv items]|]; try reflexivity.
  unfold build_query, criteria_of. destruct (apply_filters _ _); reflexivity.
Qed.

(** The handler of the read operations always raises. *)
Lemma database_error_raises {A} (operation : string) (e : exn) (w : World) :
  exists e' w', database_error (A := A) operation e w = (Raise e', w').
Proof.
  unfold database_error. destruct (is_SQLAlchemyError e); eexists _, _; reflexivity.
Qed.

Lemma get_multi_eval (skip limit : nat) (filters : option (list (string * value)))
      (w : World) :
  get_multi skip limit filters w
  = match criteria_of filters with
    | Raise e => database_error "listing" e w
    | Return cs =>
        match Db.faults (db w) (Db.ops (db w)) with
        | Some e => database_error "listing" e (after_round_trip w)
        | None => (Return (firstn limit (skipn skip (select cs (Db.store (db w))))),
                   after_round_trip w)
        end
    end.
Proof.
  unfold get_multi, try_except, bind. rewrite build_query_criteria.
  destruct (criteria_of filters) as [cs|e]; [|reflexivity].
  run_db. destruct (Db.faults (db w) (Db.ops (db w))); reflexivity.
Qed.

Lemma count_eval (filters : option (list (string * value))) (w : World) :
  count filters w
  = match criteria_of filters with
    | Raise e => database_error "counting" e w
    | Return cs =>
        match Db.faults (db w) (Db.ops (db w)) with
        | Some e => database_error "counting" e (after_round_trip w)
        | None => (Return (length (select cs (Db.store (db w)))), after_round_trip w)
        end
    end.
Proof.
  unfold count, try_except, bind. rewrite build_query_criteria.
  destruct (criteria_of filters) as [cs|e]; [|reflexivity].
  run_db. destruct (Db.faults (db w) (Db.ops (db w))); reflexivity.
Qed.

(** A listing that returns gives a page of the rows its criteria select. *)
Lemma get_multi_return (skip limit : nat) (filters : option (list (string * value)))
      (w : World) (rows : list R) :
  fst (get_multi skip limit filters w) = Return rows ->
  exists cs, criteria_of filters = Return cs /\
             snd (get_multi skip limit filters w) = after_round_trip w /\
             rows = firstn limit (skipn skip (select cs (Db.store (db w)))).
Proof.
  rewrite get_multi_eval.
  destruct (criteria_of filters) as [cs|e].
  - destruct (Db.faults (db w) (Db.ops (db w))) as [e|].
    + destruct (database_error_raises (A := list R) "listing" e (after_round_trip w))
        as (e' & w' & ->). discriminate.
    + cbn [fst snd]. intros [= <-]. exists cs. repeat split.
  - destruct (database_error_raises (A := list R) "listing" e w) as (e' & w' & ->).
    discriminate.
Qed.

Lemma count_return (filters : option (list (string * value))) (w : World) (n : nat) :
  fst (count filters w) = Return n ->
  exists cs, criteria_of filters = Return cs /\
             snd (count filters w) = after_round_trip w /\
             n = length (select cs (Db.store (db w))).
Proof.
  rewrite count_eval.
  destruct (criteria_of filters) as [cs|e].
  - destruct (Db.faults (db w) (Db.ops (db w))) as [e|].
    + destruct (database_error_raises (A := nat) "counting" e (after_round_trip w))
        as (e' & w' & ->). discriminate.
    + cbn [fst snd]. intros [= <-]. exists cs. repeat split.
  - destruct (database_error_raises (A := nat) "counting" e w) as (e' & w' & ->).
    discriminate.
Qed.



(** X14. [count] and [get_multi] agree: with the same filters and a page
    that starts at 0 and is at least as long as the count, [get_multi]
    returns exactly as many rows as [count] counted before it. *)
Theorem count_is_length_of_listing (filters : option (list (string * value)))
        (limit : nat) (w : World) (n : nat) (rows : list R) :
  fst (count filters w) = Return n ->
  (n <= limit)%nat ->
  fst (get_multi 0 limit filters (snd (count filters w))) = Return rows ->
  length rows = n.
Proof.
  intros Hcount Hlimit Hlist.
  destruct (count_return _ _ _ Hcount) as (cs & Hcs & Hw & ->).
  destruct (get_multi_return _ _ _ _ _ Hlist) as (cs' & Hcs' & _ & ->).
  rewrite Hcs in Hcs'. injection Hcs' as <-. rewrite Hw.
  cbn [skipn after_round_trip db Db.store Db.with_ops].
  rewrite firstn_all2; [reflexivity | exact Hlimit].
Qed.

(** X15. Consecutive pages fit together: the page of [limit] rows from
    [skip] followed by the page of [limit'] rows from [skip + limit] is the
    page of [limit + limit'] rows from [skip]; no row is lost or repeated at
    the seam. *)
Theorem get_multi_pages (skip limit limit' : nat)
        (filters : option (list (string * value))) (w : World)
        (page page' : list R) :
  fst (get_multi skip limit filters w) = Return page ->
  fst (get_multi (skip + limit) limit' filters
                 (snd (get_multi skip limit filters w))) = Return page' ->
  fst (get_multi skip (limit + limit') filters w) = Return (page ++ page').
Proof.
  intros H1 H2.
  destruct (get_multi_return _ _ _ _ _ H1) as (cs & Hcs & Hw & ->).
  destruct (get_multi_return _ _ _ _ _ H2) as (cs' & Hcs' & _ & ->).
  rewrite Hcs in Hcs'. injection Hcs' as <-. rewrite Hw.
  cbn [after_round_trip db Db.store Db.with_ops].
  assert (Hsame : fst (get_multi skip (limit + limit') filters w)
                  = Return (firstn (limit + limit')
                                   (skipn skip (select cs (Db.store (db w)))))).
  { revert H1. rewrite !get_multi_eval, Hcs.
    destruct (Db.faults (db w) (Db.ops (db w))) as [e|]; [|reflexivity].
    destruct (database_error_raises (A := list R) "listing" e (after_round_trip w))
      as (e' & w' & ->). discriminate. }
  rewrite Hsame. f_equal.
  rewrite (Nat.add_comm skip limit), <- skipn_skipn.
  generalize (skipn skip (select cs (Db.store (db w)))). clear.
  induction limit as [|n IH]; intros l; [reflexivity|].
  destruct l as [|x l]; cbn.
  - now rewrite firstn_nil.
  - f_equal. apply IH.
Qed.

End Paging.


Lemma count_is_length_of_listing_witness :
  length [post_with 1 100; post_with 2 200; post_with 3 300] = 3%nat.
Proof.
  apply (count_is_length_of_listing (R := BlogPost.t) None 10
           (world_on demo_store never) 3
           [post_with 1 100; post_with 2 200; post_with 3 300]).
  - reflexivity.
  - lia.
  - reflexivity.
Defined.

Lemma get_multi_pages_witness :
  fst (BaseService.get_multi (R := BlogPost.t) 0 3 None (world_on demo_store never))
  = Return ([post_with 1 100] ++ [post_with 2 200; post_with 3 300]).
Proof.
  apply (get_multi_pages (R := BlogPost.t) 0 1 2 None (world_on demo_store never));
    reflexivity.
Defined.

(** ** Listings by industry and by location *)

Section Listing.
Import BlogListing.

(** X16. [get_posts_by_industry] (resp. [get_posts_by_location]) returns at
    most [limit] committed posts, each of an industry (resp. location) that
    has the name asked for; and what the datastore raises reaches the caller
    as it is, since these two methods have no [try]. *)
Theorem listing_by_name (name : string) (skip limit : nat) (w : World) :
  (forall ps, fst (get_posts_by_industry name skip limit w) = Return ps ->
     (length ps <= limit)%nat /\
     forall p, In p ps ->
       In p (Db.posts (Db.store (db w))) /\
       exists i, In i (Db.industries (Db.store (db w))) /\ Industry.name i = name /\
                 Db.same_id (BlogPost.industry_id p) (Industry.id i) = true) /\
  (forall ps, fst (get_posts_by_location name skip limit w) = Return ps ->
     (length ps <= limit)%nat /\
     forall p, In p ps ->
       In p (Db.posts (Db.store (db w))) /\
       exists l, In l (Db.locations (Db.store (db w))) /\ Location.name l = name /\
                 Db.same_id (BlogPost.location_id p) (Location.id l) = true) /\
  (forall e, Db.faults (db w) (Db.ops (db w)) = Some e ->
     fst (get_posts_by_industry name skip limit w) = Raise e /\
     fst (get_posts_by_location name skip limit w) = Raise e).
Proof.
  split; [|split].
  - intros ps. unfold get_posts_by_industry. run_db.
    destruct (Db.faults (db w) (Db.ops (db w))); db_simpl; cbn [fst]; [discriminate|].
    intros [= <-]. split; [apply firstn_le_length|].
    intros p Hp. apply firstn_subset, skipn_subset in Hp.
    unfold posts_of_industry in Hp. apply in_flat_map in Hp as (q & Hq & Hp).
    apply in_map_iff in Hp as (i & -> & Hi). apply filter_In in Hi as [Hi Hm].
    apply andb_true_iff in Hm as [Hid Hn]. apply String.eqb_eq in Hn.
    split; [exact Hq|]. now exists i.
  - intros ps. unfold get_posts_by_location. run_db.
    destruct (Db.faults (db w) (Db.ops (db w))); db_simpl; cbn [fst]; [discriminate|].
    intros [= <-]. split; [apply firstn_le_length|].
    intros p Hp. apply firstn_subset, skipn_subset in Hp.
    unfold posts_of_location in Hp. apply in_flat_map in Hp as (q & Hq & Hp).
    apply in_map_iff in Hp as (l & -> & Hl). apply filter_In in Hl as [Hl Hm].
    apply andb_true_iff in Hm as [Hid Hn]. apply String.eqb_eq in Hn.
    split; [exact Hq|]. now exists l.
  - intros e He. unfold get_posts_by_industry, get_posts_by_location. run_db.
    rewrite He. split; reflexivity.
Qed.

End Listing.

Lemma listing_by_name_witness :
  In (post_with 3 300) (Db.posts demo_store).
Proof.
  destruct (listing_by_name "Bakery" 1 5 (world_on demo_store never)) as (H & _).
  destruct (H [post_with 2 200; post_with 3 300] eq_refl) as (_ & Hp).
  apply Hp. right. now left.
Defined.

(** ** Statistics and listings *)

Section Counting.

Lemma list_sum_cons (x : nat) (l : list nat) : list_sum (x :: l) = (x + list_sum l)%nat.
Proof. reflexivity. Qed.

Lemma length_flat_map' {A B} (f : A -> list B) (l : list A) :
  length (flat_map f l) = list_sum (map (fun x => length (f x)) l).
Proof.
  induction l as [|x l IH]; [reflexivity|].
  cbn [flat_map map]. now rewrite list_sum_cons, length_app, IH.
Qed.

Lemma filter_flat_map {A B} (P : B -> bool) (f : A -> list B) (l : list A) :
  List.filter P (flat_map f l) = flat_map (fun x => List.filter P (f x)) l.
Proof.
  induction l as [|x l IH]; [reflexivity|].
  cbn [flat_map]. now rewrite List.filter_app, IH.
Qed.

Lemma list_sum_indicator {A} (c : A -> bool) (l : list A) :
  list_sum (map (fun x => if c x then 1 else 0)%nat l) = length (List.filter c l).
Proof.
  induction l as [|x l IH]; [reflexivity|].
  cbn [map List.filter]. rewrite list_sum_cons, IH. destruct (c x); reflexivity.
Qed.

Lemma list_sum_add {A} (f g : A -> nat) (l : list A) :
  list_sum (map (fun x => f x + g x)%nat l)
  = (list_sum (map f l) + list_sum (map g l))%nat.
Proof.
  induction l as [|x l IH]; [reflexivity|].
  cbn [map]. rewrite !list_sum_cons, IH. lia.
Qed.

(** Counting the pairs of a relation by rows or by columns. *)
Lemma double_counting {A B} (c : A -> B -> bool) (la : list A) (lb : list B) :
  list_sum (map (fun a => length (List.filter (c a) lb)) la)
  = list_sum (map (fun b => length (List.filter (fun a => c a b) la)) lb).
Proof.
  induction la as [|a la IH].
  - cbn [map List.filter length]. induction lb as [|b lb IHb]; [reflexivity|].
    cbn [map]. now rewrite list_sum_cons, <- IHb.
  - cbn [map]. rewrite list_sum_cons, IH.
    rewrite <- (list_sum_indicator (c a) lb), <- list_sum_add.
    f_equal. apply List.map_ext. intros b. cbn [List.filter].
    destruct (c a b); reflexivity.
Qed.

Lemma length_filter_const {A B} (P : B -> bool) (b : B) (l : list A) :
  length (List.filter P (map (fun _ => b) l)) = if P b then length l else 0%nat.
Proof.
  induction l as [|x l IH]; [now destruct (P b)|].
  cbn [map List.filter]. destruct (P b); cbn [length]; [now rewrite IH | exact IH].
Qed.

(** The rows of the join named [name], counted from the side of the
    statistics and from the side of the listing. *)
Lemma joined_count_industry (name : string) (st : Db.Store) :
  length (List.filter (String.eqb name) (BlogService.joined_industry_names st))
  = length (BlogListing.posts_of_industry name st).
Proof.
  unfold BlogService.joined_industry_names, BlogListing.posts_of_industry.
  rewrite filter_flat_map, !length_flat_map'.
  set (c := fun (i : Industry.t) (p : BlogPost.t) =>
              Db.same_id (BlogPost.industry_id p) (Industry.id i)
              && String.eqb (Industry.name i) name).
  transitivity (list_sum (map (fun i => length (List.filter (c i) (Db.posts st)))
                              (Db.industries st))).
  - f_equal. apply List.map_ext. intros i.
    rewrite length_filter_const, String.eqb_sym. unfold c.
    destruct (String.eqb (Industry.name i) name).
    + f_equal. apply List.filter_ext. intros p. now rewrite andb_true_r.
    + symmetry. apply length_zero_iff_nil.
      induction (Db.posts st) as [|p l IH]; [reflexivity|].
      cbn [List.filter]. now rewrite andb_false_r.
  - rewrite double_counting. f_equal. apply List.map_ext. intros p.
    now rewrite length_map.
Qed.

Lemma joined_count_location (name : string) (st : Db.Store) :
  length (List.filter (String.eqb name) (BlogService.joined_location_names st))
  = length (BlogListing.posts_of_location name st).
Proof.
  unfold BlogService.joined_location_names, BlogListing.posts_of_location.
  rewrite filter_flat_map, !length_flat_map'.
  set (c := fun (l : Location.t) (p : BlogPost.t) =>
              Db.same_id (BlogPost.location_id p) (Location.id l)
              && String.eqb (Location.name l) name).
  transitivity (list_sum (map (fun l => length (List.filter (c l) (Db.posts st)))
                              (Db.locations st))).
  - f_equal. apply List.map_ext. intros l.
    rewrite length_filter_const, String.eqb_sym. unfold c.
    destruct (String.eqb (Location.name l) name).
    + f_equal. apply List.filter_ext. intros p. now rewrite andb_true_r.
    + symmetry. apply length_zero_iff_nil.
      induction (Db.posts st) as [|p ps IH]; [reflexivity|].
      cbn [List.filter]. now rewrite andb_false_r.
  - rewrite double_counting. f_equal. apply List.map_ext. intros p.
    now rewrite length_map.
Qed.

End Counting.

Section StatsFields.
Import BlogService BlogListing.

(** The statistics, when they are returned, as functions of the store. *)
Lemma get_blog_stats_value (w : World) (stats : Stats) :
  fst (get_blog_stats w) = Return stats ->
  let st := Db.store (db w) in
  total_posts stats = length (Db.posts st) /\
  posts_by_industry stats = grouped_counts (joined_industry_names st) /\
  posts_by_location stats = grouped_counts (joined_location_names st) /\
  last_generated stats = latest (map BlogPost.created_at (Db.posts st)) /\
  Db.store (db (snd (get_blog_stats w))) = st.
Proof.
  unfold get_blog_stats, try_except, stats_body, BaseService.count, try_except,
    BaseService.database_error, BaseService.build_query, logger_error.
  run_db.
  repeat (split_case; db_simpl).
  all: cbn [fst snd]; try discriminate.
  all: intros [= <-]; cbn [total_posts posts_by_industry posts_by_location last_generated].
  all: repeat split.
  all: unfold BaseService.select; cbn [forallb BaseService.table Models.blogpost_model].
  all: now rewrite filter_all.
Qed.

Lemma grouped_counts_spec (joined : list string) (n : string) (c : nat) :
  In (n, c) (grouped_counts joined) <->
  In n joined /\ c = length (List.filter (String.eqb n) joined).
Proof.
  unfold grouped_counts. rewrite in_map_iff. split.
  - intros (m & [= -> <-] & Hm). split; [|reflexivity].
    apply list_elem_of_In, (elem_of_remove_dups joined n), list_elem_of_In, Hm.
  - intros [Hn ->]. exists n. split; [reflexivity|].
    apply list_elem_of_In, elem_of_remove_dups, list_elem_of_In, Hn.
Qed.

Lemma filter_eqb_present (n : string) (joined : list string) :
  In n joined -> (1 <= length (List.filter (String.eqb n) joined))%nat.
Proof.
  intros Hn. assert (Hin : In n (List.filter (String.eqb n) joined)).
  { apply filter_In. split; [exact Hn | apply String.eqb_refl]. }
  destruct (List.filter (String.eqb n) joined); [destruct Hin | cbn; lia].
Qed.

(** X17. The statistics and the listings agree.  The names in
    [posts_by_industry] are distinct, each with a count of at least 1, and
    that count is the number of posts [get_posts_by_industry] lists for the
    name on the same store when the page starts at 0 and is long enough; for
    a name that is not in [posts_by_industry] the listing is empty. *)
Theorem stats_agree_with_listing (w w2 : World) (stats : Stats) :
  fst (get_blog_stats w) = Return stats ->
  Db.store (db w2) = Db.store (db w) ->
  NoDup (map fst (posts_by_industry stats)) /\
  (forall name c ps limit,
      In (name, c) (posts_by_industry stats) ->
      (c <= limit)%nat ->
      fst (get_posts_by_industry name 0 limit w2) = Return ps ->
      (1 <= c)%nat /\ length ps = c) /\
  (forall name ps limit,
      (forall c, ~ In (name, c) (posts_by_industry stats)) ->
      fst (get_posts_by_industry name 0 limit w2) = Return ps ->
      ps = []).
Proof.
  intros Hstats Hst.
  destruct (get_blog_stats_value w stats Hstats) as (_ & Hind & _).
  cbv zeta in Hind. rewrite Hind.
  assert (Hlist : forall name limit ps,
             fst (get_posts_by_industry name 0 limit w2) = Return ps ->
             ps = firstn limit (posts_of_industry name (Db.store (db w)))).
  { intros name limit ps. unfold get_posts_by_industry. run_db.
    destruct (Db.faults (db w2) (Db.ops (db w2))); db_simpl; cbn [fst]; [discriminate|].
    rewrite Hst. now intros [= <-]. }
  split; [|split].
  - unfold grouped_counts. rewrite map_map. cbn [fst]. rewrite map_id.
    apply NoDup_remove_dups.
  - intros name c ps limit Hin Hlimit Hps.
    apply grouped_counts_spec in Hin as [Hn ->].
    split; [now apply filter_eqb_present|].
    rewrite (Hlist _ _ _ Hps), joined_count_industry in *.
    now rewrite firstn_all2.
  - intros name ps limit Hnone Hps. rewrite (Hlist _ _ _ Hps).
    assert (Hzero : length (posts_of_industry name (Db.store (db w))) = 0%nat).
    { rewrite <- joined_count_industry.
      destruct (List.filter (String.eqb name) (joined_industry_names (Db.store (db w))))
        as [|m l] eqn:Hf; [reflexivity|].
      exfalso. assert (Hm : In m (m :: l)) by now left.
      rewrite <- Hf in Hm. apply filter_In in Hm as [Hm Heq].
      apply String.eqb_eq in Heq. subst m.
      apply (Hnone (length (List.filter (String.eqb name)
                                        (joined_industry_names (Db.store (db w)))))).
      now apply grouped_counts_spec. }
    apply length_zero_iff_nil in Hzero. rewrite Hzero. now destruct limit.
Qed.

End StatsFields.

(** The theorem on the store of the examples: three posts for the bakery. *)
Lemma stats_agree_with_listing_witness :
  length [post_with 1 100; post_with 2 200; post_with 3 300] = 3%nat.
Proof.
  set (w := world_on demo_store never).
  destruct (stats_agree_with_listing w w
              {| BlogService.total_posts := 3;
                 BlogService.posts_by_industry := [("Bakery", 3%nat)];
                 BlogService.posts_by_location := [("Austin", 3%nat)];
                 BlogService.average_tokens := BlogService.round2 (600 # 3);
                 BlogService.last_generated := Some 103%Z |}
              ltac:(vm_compute; reflexivity) eq_refl) as (_ & H & _).
  exact (proj2 (H "Bakery" 3%nat [post_with 1 100; post_with 2 200; post_with 3 300]
                  10%nat (or_introl eq_refl) ltac:(lia) eq_refl)).
Defined.

(** ** A post that was created *)

Section CreateSuccess.
Import BlogService.







Variables (industry_name location_name topic : string) (style : option string).


End CreateSuccess.


(** ** The statistics as a whole *)

Section StatsTotals.
Import BlogService BlogListing.

Lemma list_sum_ones {A} (f : A -> nat) (l : list A) :
  (forall x, In x l -> f x = 1%nat) -> list_sum (map f l) = length l.
Proof.
  induction l as [|x l IH]; intros Hf; [reflexivity|].
  cbn [map length]. rewrite list_sum_cons, (Hf x) by now left.
  rewrite IH; [reflexivity|]. intros y Hy. apply Hf. now right.
Qed.

Lemma filter_nothing {A} (P : A -> bool) (l : list A) :
  (forall x, In x l -> P x = false) -> List.filter P l = [].
Proof.
  induction l as [|x l IH]; intros Hl; [reflexivity|].
  cbn [List.filter]. rewrite (Hl x) by now left. apply IH.
  intros y Hy. apply Hl. now right.
Qed.

(** A key that is in a table without repeated keys selects one row. *)
Lemma unique_match {A} (key : A -> option Z) (l : list A) (k : option Z) :
  List.NoDup (map key l) ->
  (exists x, In x l /\ Db.same_id k (key x) = true) ->
  length (List.filter (fun x => Db.same_id k (key x)) l) = 1%nat.
Proof.
  induction l as [|y l IH]; intros Hnd (x & Hx & Hk); [destruct Hx|].
  cbn [map] in Hnd. apply List.NoDup_cons_iff in Hnd as [Hy Hnd].
  cbn [List.filter]. destruct (Db.same_id k (key y)) eqn:Ey.
  - cbn [length]. f_equal. apply length_zero_iff_nil, filter_nothing.
    intros z Hz. destruct (Db.same_id k (key z)) eqn:Ez; [|reflexivity].
    exfalso. apply Hy.
    apply same_id_spec in Ey as (a & -> & Ea), Ez as (b & [= <-] & Eb).
    rewrite Ea, <- Eb. now apply in_map.
  - apply IH; [exact Hnd|]. destruct Hx as [<-|Hx]; [congruence|].
    exists x. now split.
Qed.

Lemma unique_name (ks : list string) (x : string) :
  List.NoDup ks -> In x ks ->
  length (List.filter (fun k => String.eqb k x) ks) = 1%nat.
Proof.
  induction ks as [|k ks IH]; intros Hnd Hx; [destruct Hx|].
  apply List.NoDup_cons_iff in Hnd as [Hk Hnd].
  cbn [List.filter]. destruct (String.eqb_spec k x) as [->|Hne].
  - cbn [length]. f_equal. apply length_zero_iff_nil, filter_nothing.
    intros z Hz. apply String.eqb_neq. intros ->. now apply Hk.
  - apply IH; [exact Hnd|]. destruct Hx as [->|Hx]; [congruence | exact Hx].
Qed.

(** The counts of a GROUP BY add up to the number of rows grouped. *)
Lemma grouped_counts_total (joined : list string) :
  list_sum (map snd (grouped_counts joined)) = length joined.
Proof.
  unfold grouped_counts. rewrite map_map. cbn [snd].
  rewrite (double_counting String.eqb (remove_dups joined) joined).
  apply list_sum_ones. intros x Hx. apply unique_name.
  - apply NoDup_ListNoDup, NoDup_remove_dups.
  - apply list_elem_of_In, elem_of_remove_dups, list_elem_of_In, Hx.
Qed.

Lemma joined_industry_total (st : Db.Store) :
  references_valid st ->
  List.NoDup (map Industry.id (Db.industries st)) ->
  length (joined_industry_names st) = length (Db.posts st).
Proof.
  intros Hvalid Hkeys. unfold joined_industry_names.
  rewrite length_flat_map'.
  transitivity (list_sum (map (fun i => length
      (List.filter (fun p => Db.same_id (BlogPost.industry_id p) (Industry.id i))
                   (Db.posts st))) (Db.industries st))).
  { f_equal. apply List.map_ext. intros i. now rewrite length_map. }
  rewrite (double_counting
             (fun i p => Db.same_id (BlogPost.industry_id p) (Industry.id i))).
  apply list_sum_ones. intros p Hp.
  apply (unique_match Industry.id); [exact Hkeys | exact (proj1 (Hvalid p Hp))].
Qed.

Lemma joined_location_total (st : Db.Store) :
  references_valid st ->
  List.NoDup (map Location.id (Db.locations st)) ->
  length (joined_location_names st) = length (Db.posts st).
Proof.
  intros Hvalid Hkeys. unfold joined_location_names.
  rewrite length_flat_map'.
  transitivity (list_sum (map (fun l => length
      (List.filter (fun p => Db.same_id (BlogPost.location_id p) (Location.id l))
                   (Db.posts st))) (Db.locations st))).
  { f_equal. apply List.map_ext. intros l. now rewrite length_map. }
  rewrite (double_counting
             (fun l p => Db.same_id (BlogPost.location_id p) (Location.id l))).
  apply list_sum_ones. intros p Hp.
  apply (unique_match Location.id); [exact Hkeys | exact (proj2 (Hvalid p Hp))].
Qed.

(** X19. On a store where the ids of the industries and of the locations
    are keys (no id twice) and every post refers to a committed industry and
    a committed location, the statistics count every post once: the counts of
    [posts_by_industry] add up to [total_posts], and so do the counts of
    [posts_by_location]; [total_posts] is the number of posts. *)
Theorem stats_counts_add_up (w : World) (stats : Stats) :
  fst (get_blog_stats w) = Return stats ->
  references_valid (Db.store (db w)) ->
  List.NoDup (map Industry.id (Db.industries (Db.store (db w)))) ->
  List.NoDup (map Location.id (Db.locations (Db.store (db w)))) ->
  total_posts stats = length (Db.posts (Db.store (db w))) /\
  list_sum (map snd (posts_by_industry stats)) = total_posts stats /\
  list_sum (map snd (posts_by_location stats)) = total_posts stats.
Proof.
  intros Hstats Hvalid Hi Hl.
  destruct (get_blog_stats_value w stats Hstats) as (Htotal & Hind & Hloc & _).
  cbv zeta in *. rewrite Htotal, Hind, Hloc, !grouped_counts_total.
  split; [reflexivity|]. split.
  - now apply joined_industry_total.
  - now apply joined_location_total.
Qed.

Lemma latest_spec (stamps : list (option Z)) :
  match latest stamps with
  | None => forall s, In s stamps -> s = None
  | Some t => In (Some t) stamps /\ forall t', In (Some t') stamps -> (t' <= t)%Z
  end.
Proof.
  unfold latest.
  assert (Hin : forall t, In t (omap id stamps) <-> In (Some t) stamps).
  { intros t. rewrite <- !list_elem_of_In, list_elem_of_omap. split.
    - intros (s & Hs & Heq). cbn in Heq. now subst.
    - intros Ht. now exists (Some t). }
  destruct (omap id stamps) as [|t ts] eqn:E.
  - intros [t|] Hs; [|reflexivity]. apply Hin in Hs. destruct Hs.
  - assert (Hmax : In (fold_right Z.max t ts) (t :: ts) /\
                   forall t', In t' (t :: ts) -> (t' <= fold_right Z.max t ts)%Z).
    { clear. induction ts as [|u ts [IH1 IH2]].
      - split; [now left|]. intros t' [<-|[]]. cbn. lia.
      - cbn [fold_right]. split.
        + destruct (Z.max_spec u (fold_right Z.max t ts)) as [[_ ->]|[_ ->]].
          * destruct IH1 as [<-|IH1]; [now left | now right; right].
          * right. now left.
        + intros t' [Ht'|[Ht'|Ht']].
          * specialize (IH2 t' (or_introl Ht')). lia.
          * lia.
          * specialize (IH2 t' (or_intror Ht')). lia. }
    destruct Hmax as [H1 H2]. split.
    + now apply Hin.
    + intros t' Ht'. apply H2. now apply Hin.
Qed.

(** X20. [last_generated] of the statistics is the creation time of a
    post, and no post was created later; it is [None] only when no post has
    a creation time, as on a store without posts. *)
Theorem stats_last_generated (w : World) (stats : Stats) :
  fst (get_blog_stats w) = Return stats ->
  let posts := Db.posts (Db.store (db w)) in
  match last_generated stats with
  | Some t =>
      (exists p, In p posts /\ BlogPost.created_at p = Some t) /\
      (forall p t', In p posts -> BlogPost.created_at p = Some t' -> (t' <= t)%Z)
  | None => forall p, In p posts -> BlogPost.created_at p = None
  end.
Proof.
  intros Hstats posts.
  destruct (get_blog_stats_value w stats Hstats) as (_ & _ & _ & Hlast & _).
  cbv zeta in Hlast. rewrite Hlast. fold posts.
  pose proof (latest_spec (map BlogPost.created_at posts)) as Hspec.
  destruct (latest (map BlogPost.created_at posts)) as [t|].
  - destruct Hspec as [Hin Hmax]. split.
    + apply in_map_iff in Hin as (p & Hp & Hin). now exists p.
    + intros p t' Hp Ht'. apply Hmax. rewrite <- Ht'. now apply in_map.
  - intros p Hp. apply Hspec. now apply in_map.
Qed.

End StatsTotals.

Lemma demo_store_keys :
  List.NoDup (map Industry.id (Db.industries demo_store)) /\
  List.NoDup (map Location.id (Db.locations demo_store)).
Proof.
  split; repeat constructor; cbn; intuition discriminate.
Defined.

(** The theorem on the store of the examples: three posts, all for the
    bakery, all in Austin. *)
Lemma stats_counts_add_up_witness :
  list_sum (map snd [("Bakery", 3%nat)]) = 3%nat.
Proof.
  exact (proj1 (proj2 (stats_counts_add_up (world_on demo_store never)
              {| BlogService.total_posts := 3;
                 BlogService.posts_by_industry := [("Bakery", 3%nat)];
                 BlogService.posts_by_location := [("Austin", 3%nat)];
                 BlogService.average_tokens := BlogService.round2 (600 # 3);
                 BlogService.last_generated := Some 103%Z |}
              ltac:(vm_compute; reflexivity) demo_store_valid
              (proj1 demo_store_keys) (proj2 demo_store_keys)))).
Defined.

(** The theorem on the store of the examples: the third post is the latest. *)
Lemma stats_last_generated_witness :
  exists p, In p (Db.posts demo_store) /\ BlogPost.created_at p = Some 103%Z.
Proof.
  exact (proj1 (stats_last_generated (world_on demo_store never)
              {| BlogService.total_posts := 3;
                 BlogService.posts_by_industry := [("Bakery", 3%nat)];
                 BlogService.posts_by_location := [("Austin", 3%nat)];
                 BlogService.average_tokens := BlogService.round2 (600 # 3);
                 BlogService.last_generated := Some 103%Z |}
              ltac:(vm_compute; reflexivity))).
Defined.

(** ** Session scopes *)

Section SessionScopes.
Import Database.

Lemma add_all_run (rows : list Row) : forall w : World,
  add_all rows w
  = (Return tt, {| db := Db.with_pending (Db.pending (db w) ++ rows) (db w);
                   ai := ai w; log := log w |}).
Proof.
  induction rows as [|r rows IH]; intros [[st pe fa op cl ti] a l].
  - cbn. unfold Db.with_pending. cbn. now rewrite app_nil_r.
  - cbn [add_all]. unfold bind at 1. run_db. rewrite IH. db_simpl.
    unfold Db.with_pending. cbn. now rewrite <- app_assoc.
Qed.

(** A flush that goes through inserts every pending object as one row. *)
Lemma flush_count (clk : nat -> Z) (rows : list Row) :
  forall (tk : nat) (st st' : Db.Store) (flushed : list Row) (tk' : nat),
  Db.flush clk tk rows st = Return (flushed, st', tk') ->
  row_count st' = (row_count st + length rows)%nat.
Proof.
  induction rows as [|r rows IH]; intros tk st st' flushed tk'; cbn [Db.flush].
  - intros [= <- <- <-]. cbn. lia.
  - destruct (Db.insert_row _ _ r st) as [[r1 st1]|e] eqn:Hins; [|discriminate].
    destruct (Db.flush clk (S (S tk)) rows st1) as [[[rs st2] tk2]|e] eqn:Hfl;
      [|discriminate].
    intros [= <- <- <-]. rewrite (IH _ _ _ _ _ Hfl).
    assert (Hone : row_count st1 = S (row_count st)).
    { destruct r as [i|l|p].
      - apply insert_industry in Hins as (i' & _ & -> & _).
        unfold row_count. cbn. rewrite length_app. cbn. lia.
      - apply insert_location in Hins as (l' & _ & -> & _).
        unfold row_count. cbn. rewrite length_app. cbn. lia.
      - apply insert_post in Hins as (p' & _ & -> & _).
        unfold row_count. cbn. rewrite length_app. cbn. lia. }
    rewrite Hone. cbn [length]. lia.
Qed.

(** X21. Adding objects under [get_db] is all or nothing: either the call
    returns and every object added has become a row, or it raises, having
    logged the exception it raises, and the store has the rows it had.
    Under [get_db_session] the same objects are dropped when the session is
    closed: the call returns and the store has the rows it had.  Neither
    scope touches the objects pending in another session. *)
Theorem session_scopes (rows : list Row) (w : World) :
  let committed := get_db (add_all rows) w in
  let dropped := get_db_session (add_all rows) w in
  ((fst committed = Return tt /\
    row_count (Db.store (db (snd committed)))
    = (row_count (Db.store (db w)) + length rows)%nat /\
    log (snd committed) = log w)
   \/
   (exists e, fst committed = Raise e /\
      Db.store (db (snd committed)) = Db.store (db w) /\
      log (snd committed) = log w ++ [database_error_record e])) /\
  Db.pending (db (snd committed)) = Db.pending (db w) /\
  fst dropped = Return tt /\
  Db.store (db (snd dropped)) = Db.store (db w) /\
  Db.pending (db (snd dropped)) = Db.pending (db w).
Proof.
  cbv zeta. unfold get_db, get_db_session, try_except, bind.
  rewrite !add_all_run.
  unfold open_session, close_session, logger_error. run_db.
  destruct (Db.faults (db w) (Db.ops (db w))) as [e|] eqn:Hfault; db_simpl.
  { split; [right; exists e; repeat split|repeat split]. }
  destruct (Db.flush (Db.clock (db w)) (Db.ticks (db w)) rows (Db.store (db w)))
    as [[[flushed st'] tk']|e] eqn:Hflush; db_simpl.
  - split; [left|repeat split].
    split; [reflexivity|]. split; [|reflexivity].
    exact (flush_count _ _ _ _ _ _ _ Hflush).
  - split; [right; exists e; repeat split|repeat split].
Qed.

End SessionScopes.

(** ** The validator of the request fields *)

Section Validator.
Import Schemas.

Lemma lstrip_spec (s : list ascii) :
  exists pre, s = pre ++ lstrip s /\
    List.Forall (fun c => PyStr.isspace c = true) pre /\
    (forall c, head (lstrip s) = Some c -> PyStr.isspace c = false).
Proof.
  induction s as [|c s (pre & Hs & Hpre & Hhd)].
  - exists []. repeat split; [constructor | discriminate].
  - cbn [lstrip]. destruct (PyStr.isspace c) eqn:E.
    + exists (c :: pre). split; [cbn; now rewrite <- Hs|].
      split; [now constructor | exact Hhd].
    + exists []. split; [reflexivity|]. split; [constructor|].
      intros c' [= <-]. exact E.
Qed.

Lemma lstrip_fixed (s : list ascii) :
  (forall c, head s = Some c -> PyStr.isspace c = false) -> lstrip s = s.
Proof.
  destruct s as [|c s]; [reflexivity|]. intros H. cbn [lstrip].
  now rewrite (H c eq_refl).
Qed.

(** The two strips cut white space off both ends and nothing else. *)
Lemma strip_list_spec (l : list ascii) :
  let core := rev (lstrip (rev (lstrip l))) in
  exists pre post, l = pre ++ core ++ post /\
    List.Forall (fun c => PyStr.isspace c = true) pre /\
    List.Forall (fun c => PyStr.isspace c = true) post /\
    (forall c, head core = Some c -> PyStr.isspace c = false) /\
    (forall c, head (rev core) = Some c -> PyStr.isspace c = false).
Proof.
  cbv zeta.
  destruct (lstrip_spec l) as (pre & Hl & Hpre & Hhd).
  destruct (lstrip_spec (rev (lstrip l))) as (q & Hr & Hq & Hhd2).
  set (a := lstrip l) in *. set (b := lstrip (rev a)) in *.
  assert (Ha : a = rev b ++ rev q).
  { rewrite <- rev_app_distr, <- Hr. now rewrite rev_involutive. }
  exists pre, (rev q). split; [now rewrite <- Ha|].
  split; [exact Hpre|]. split; [now apply List.Forall_rev|]. split.
  - intros c Hc. apply Hhd. rewrite Ha.
    destruct (rev b) as [|c' r]; [discriminate|]. exact Hc.
  - intros c. rewrite rev_involutive. apply Hhd2.
Qed.

(** X22. [validate_not_empty] cuts the white space off both ends of the
    value and nothing else: the value it returns is not empty, neither begins
    nor ends with white space, and is its own validated form; it raises
    "Field cannot be empty" exactly on a value that is white space
    throughout. *)
Theorem validate_not_empty_spec (v : string) :
  match validate_not_empty v with
  | Return v' =>
      (exists pre post,
          list_ascii_of_string v = pre ++ list_ascii_of_string v' ++ post /\
          List.Forall (fun c => PyStr.isspace c = true) pre /\
          List.Forall (fun c => PyStr.isspace c = true) post) /\
      v' <> EmptyString /\
      (forall c, head (list_ascii_of_string v') = Some c -> PyStr.isspace c = false) /\
      (forall c, head (rev (list_ascii_of_string v')) = Some c ->
                 PyStr.isspace c = false) /\
      validate_not_empty v' = Return v'
  | Raise e =>
      e = Exception "Field cannot be empty" /\
      List.Forall (fun c => PyStr.isspace c = true) (list_ascii_of_string v)
  end.
Proof.
  unfold validate_not_empty, strip.
  destruct (strip_list_spec (list_ascii_of_string v))
    as (pre & post & Hv & Hpre & Hpost & Hfirst & Hlast).
  set (core := rev (lstrip (rev (lstrip (list_ascii_of_string v))))) in *.
  destruct (String.eqb_spec (string_of_list_ascii core) EmptyString) as [Hempty|Hfull].
  - split; [reflexivity|]. rewrite Hv.
    assert (Hcore : core = []).
    { rewrite <- (list_ascii_of_string_of_list_ascii core), Hempty. reflexivity. }
    rewrite Hcore. cbn [app]. apply List.Forall_app. now split.
  - rewrite list_ascii_of_string_of_list_ascii.
    split; [now exists pre, post|]. split; [exact Hfull|].
    split; [exact Hfirst|]. split; [exact Hlast|].
    rewrite (lstrip_fixed core Hfirst), (lstrip_fixed (rev core) Hlast), rev_involutive.
    destruct (String.eqb_spec (string_of_list_ascii core) EmptyString);
      [contradiction | reflexivity].
Qed.

End Validator.

(** ** The two full names of a place *)

Section FullNames.
Import LocationService.

(** X23. The suggestion and the stored row agree on the full name when the
    place name, the state and the country of the geocoding result are all
    there and pairwise different: a location stored under the name of the
    suggestion with that state and that country has the full name the
    suggestion showed. *)
Theorem full_names_agree (result : Result) (l : Location.t) (state country : string) :
  address_of result !! "state" = Some state ->
  address_of result !! "country" = Some country ->
  _get_place_name result <> EmptyString ->
  state <> EmptyString -> country <> EmptyString ->
  state <> _get_place_name result ->
  country <> _get_place_name result ->
  country <> state ->
  Location.name l = name (suggestion result) ->
  Location.state l = Some state ->
  Location.country l = country ->
  LocationModel.full_name l = full_name (suggestion result).
Proof.
  intros Hs Hc Hn Hs0 Hc0 Hsn Hcn Hcs Hname Hstate Hcountry.
  unfold LocationModel.full_name. cbn [full_name name suggestion] in *.
  unfold _format_full_name. rewrite Hs, Hc, Hname, Hstate, Hcountry.
  apply String.eqb_neq in Hn, Hs0, Hc0, Hsn, Hcn, Hcs.
  unfold py_or, append_new, truthy. cbn [default].
  repeat (rewrite ?Hn, ?Hs0, ?Hsn, ?Hc0, ?Hcn, ?Hcs; cbn [negb app existsb andb orb]).
  reflexivity.
Qed.

End FullNames.

(** The theorem on the geocoding result of the example. *)
Lemma full_names_agree_witness :
  LocationModel.full_name
    {| Location.id := Some 7%Z; Location.created_at := None; Location.updated_at := None;
       Location.name := "Austin"; Location.state := Some "Texas";
       Location.country := "USA"; Location.timezone := None;
       Location.metadata := None |}
  = "Austin, Texas, USA".
Proof.
  apply (full_names_agree austin _ "Texas" "USA");
    solve [vm_compute; reflexivity | discriminate | vm_compute; discriminate].
Defined.
